(** * PromptEnhancer backend: quota ledger, identity linker, session store,
      input classifier and context builder

    A shallow embedding of the TypeScript sources, named by the module
    paths the code imports them under, with the file of the source tree
    that holds them:

      - [utils/dayKey]       day keys, time to midnight, Redis key names
                             (src/utils/dayKey.ts)
      - [services/redis]     daily quota counters and the anonymous link
                             (src/services/verify.ts, second part)
      - [models/Session]     sessions and their synopsis
                             (src/models/Session.ts)
      - [models/Prompt]      prompt (turn) records
                             (src/services/verify.ts, third part)
      - [middleware/anonId]  the anonymous-id middleware
                             (src/middleware/anonId.ts)
      - [routes/session]     session creation, lookup and merge
                             (src/routes/enhance.ts, second part)
      - [routes/enhance]     session auto-creation of an enhancement
                             (src/routes/enhance.ts, first part)
      - [services/context]   follow-up classifier and context builder
                             (src/services/queue.ts, second part)
      - [middleware/limitEnhance]  the rate-limit middleware
                             (src/middleware/limitEnhance.ts)
      - [services/verify]    prompt verification
                             (src/services/verify.ts, first part)
      - [middleware/auth]    the access token of a request
                             (src/unnamed/part_003, first part)

    followed by the properties of the specification that were checked
    against it. *)

From Stdlib Require Import ZArith Lia QArith Qminmax.
From stdpp Require Import gmap strings list fin_maps pretty.

#[local] Open Scope Z_scope.

(* ===================================================================== *)
(** ** Dates and day keys ([utils/dayKey]) *)
(* ===================================================================== *)

(** A JavaScript [Date] is its time value: milliseconds since the epoch,
    UTC.  The three getters below are the runtime's, written out with the
    usual days-to-civil-date computation. *)
Definition Date := Z.

Definition msPerDay : Z := 86400000.

(** The number of the UTC day a date falls on. *)
Definition utcDay (date : Date) : Z := date / msPerDay.

(** Two dates on the same UTC day. *)
Definition sameDay (d0 d : Date) : Prop := utcDay d = utcDay d0.

(** Civil date (year, month 1..12, day 1..31) of a day number. *)
Definition civilFromDays (days : Z) : Z * Z * Z :=
  let z := days + 719468 in
  let era := z / 146097 in
  let doe := z - era * 146097 in
  let yoe := (doe - doe / 1460 + doe / 36524 - doe / 146096) / 365 in
  let doy := doe - (365 * yoe + yoe / 4 - yoe / 100) in
  let mp := (5 * doy + 2) / 153 in
  let d := doy - (153 * mp + 2) / 5 + 1 in
  let m := if mp <? 10 then mp + 3 else mp - 9 in
  let y := yoe + era * 400 + (if m <=? 2 then 1 else 0) in
  (y, m, d).

Definition getUTCFullYear (date : Date) : Z :=
  let '(y, _, _) := civilFromDays (utcDay date) in y.

(** Months are counted from zero, as in JavaScript. *)
Definition getUTCMonth (date : Date) : Z :=
  let '(_, m, _) := civilFromDays (utcDay date) in m - 1.

Definition getUTCDate (date : Date) : Z :=
  let '(_, _, d) := civilFromDays (utcDay date) in d.

(** [String(n).padStart(2, '0')] *)
Definition padStart2 (n : Z) : string :=
  let s := pretty n in
  if (String.length s <? 2)%nat then "0" +:+ s else s.

Definition getDayKey (date : Date) : string :=
  let year := getUTCFullYear date in
  let month := padStart2 (getUTCMonth date + 1) in
  let day := padStart2 (getUTCDate date) in
  pretty year +:+ month +:+ day.

(** [midnight.setUTCHours(24, 0, 0, 0)] is the start of the next UTC day. *)
Definition getSecondsUntilMidnight (date : Date) : Z :=
  let now := date in
  let midnight := (utcDay date + 1) * msPerDay in
  (midnight - now) / 1000.

(** A date at least one full second before the next UTC midnight: the
    dates at which the time to midnight, rounded down, is not zero. *)
Definition beforeLastSecond (date : Date) : Prop := 0 < getSecondsUntilMidnight date.

Definition getAnonQuotaKey (anonId : string) (date : Date) : string :=
  let dayKey := getDayKey date in
  "enh:anon:" +:+ anonId +:+ ":" +:+ dayKey.

Definition getUserQuotaKey (userId : string) (date : Date) : string :=
  let dayKey := getDayKey date in
  "enh:user:" +:+ userId +:+ ":" +:+ dayKey.

Definition getIpQuotaKey (ip : string) (date : Date) : string :=
  let dayKey := getDayKey date in
  "enh:ip:" +:+ ip +:+ ":" +:+ dayKey.

Definition getLinkAnonKey (userId anonId : string) (date : Date) : string :=
  let dayKey := getDayKey date in
  "link:anon:" +:+ userId +:+ ":" +:+ anonId +:+ ":" +:+ dayKey.

(* ===================================================================== *)
(** ** The Redis store, as [services/redis] uses it *)
(* ===================================================================== *)

(** A key holds a value and, once [EXPIRE] or [SETEX] ran on it, the
    time-to-live in seconds it was last given.  The keys of the quota
    ledger only ever hold decimal integers (they are written by [INCR],
    [INCRBY] and [SETEX key ttl '1']), so a value is kept as the integer
    that [parseInt(value, 10)] reads back.

    A time-to-live that is not positive is played as Redis plays it (see
    [exec_command]).  A positive one is recorded.  That it runs out is not
    played: a key written at least a second before midnight lives into
    the last second of its day ([written_key_outlives_calls]), so it is
    there for every later call made at least a second before midnight,
    and the properties below that read back what a call wrote are about
    such calls. *)
Record entry : Type := Entry { value : Z; ttl : option Z }.

Inductive command : Type :=
  | INCR (key : string)
  | INCRBY (key : string) (increment : Z)
  | EXPIRE (key : string) (seconds : Z)
  | SETEX (key : string) (seconds : Z) (val : Z).

(** [INCRBY] starts an absent key at zero and keeps the time-to-live of a
    present one. *)
Definition incrby (key : string) (n : Z) (s : gmap string entry) : gmap string entry :=
  match s !! key with
  | Some e => <[key := Entry (value e + n) (ttl e)]> s
  | None => <[key := Entry n None]> s
  end.

(** [EXPIRE] only touches a present key, and deletes it when the timeout
    is zero or negative.  [SETEX] with such a timeout is refused by Redis
    (invalid expire time) and writes nothing; inside a transaction the
    commands around it still run, and [exec()] resolves. *)
Definition exec_command (s : gmap string entry) (c : command) : gmap string entry :=
  match c with
  | INCR key => incrby key 1 s
  | INCRBY key n => incrby key n s
  | EXPIRE key seconds =>
      match s !! key with
      | Some e =>
          if seconds <=? 0 then delete key s
          else <[key := Entry (value e) (Some seconds)]> s
      | None => s
      end
  | SETEX key seconds v =>
      if seconds <=? 0 then s
      else <[key := Entry v (Some seconds)]> s
  end.

(** [redis.multi() ... .exec()]: the queued commands run in order, with no
    command of another client in between. *)
Definition exec_multi (cmds : list command) (s : gmap string entry) : gmap string entry :=
  foldl exec_command s cmds.

Definition redis_get (s : gmap string entry) (key : string) : option Z :=
  value <$> s !! key.

Definition redis_exists (s : gmap string entry) (key : string) : bool :=
  bool_decide (is_Some (s !! key)).

(** An [async] function over the store: every constructor but [Ret] is one
    awaited round trip to Redis, and the function argument is the rest of
    the body, resumed with the reply. *)
Inductive redis (A : Type) : Type :=
  | Ret (a : A)
  | GET (key : string) (k : option Z → redis A)
  | EXISTS (key : string) (k : bool → redis A)
  | MULTI (cmds : list command) (k : unit → redis A).

Arguments Ret {A} a.
Arguments GET {A} key k.
Arguments EXISTS {A} key k.
Arguments MULTI {A} cmds k.

Notation "'await' x ← c ; k" := (c (fun x => k))
  (at level 10, x name, c at level 100, k at level 200,
   format "'[v' 'await'  x  ←  c ; '/' k ']'").

(** Running a call alone, from its first to its last round trip. *)
Fixpoint run {A : Type} (p : redis A) (s : gmap string entry) : A * gmap string entry :=
  match p with
  | Ret a => (a, s)
  | GET key k => run (k (redis_get s key)) s
  | EXISTS key k => run (k (redis_exists s key)) s
  | MULTI cmds k => run (k tt) (exec_multi cmds s)
  end.

(** One round trip of a call. *)
Definition step {A : Type} (p : redis A) (s : gmap string entry) : redis A * gmap string entry :=
  match p with
  | Ret a => (Ret a, s)
  | GET key k => (k (redis_get s key), s)
  | EXISTS key k => (k (redis_exists s key), s)
  | MULTI cmds k => (k tt, exec_multi cmds s)
  end.

Definition returned {A : Type} (p : redis A) : option A :=
  match p with
  | Ret a => Some a
  | _ => None
  end.

(** Calls in flight at once: the schedule names, round trip after round
    trip, the call whose request Redis serves next. *)
Fixpoint interleave {A : Type} (schedule : list nat) (calls : list (redis A))
    (s : gmap string entry) : list (redis A) * gmap string entry :=
  match schedule with
  | [] => (calls, s)
  | i :: schedule' =>
      match calls !! i with
      | Some p =>
          let '(p', s') := step p s in
          interleave schedule' (<[i := p']> calls) s'
      | None => interleave schedule' calls s
      end
  end.

(** Calls issued one after another: each runs to its end before the next
    starts.  The result lists every call's reply with the store it left. *)
Fixpoint run_each {A : Type} (calls : list (redis A)) (s : gmap string entry)
    : list (A * gmap string entry) :=
  match calls with
  | [] => []
  | p :: calls' => let r := run p s in r :: run_each calls' (snd r)
  end.

(* ===================================================================== *)
(** ** Quota ledger and identity linker ([services/redis]) *)
(* ===================================================================== *)

Record quota : Type := Quota { allowed : bool; remaining : Z }.

Record link_result : Type := LinkResult { linked : bool; count : Z }.

(** [current ? parseInt(current, 10) : 0] *)
Definition parseCount (current : option Z) : Z :=
  match current with
  | Some n => n
  | None => 0
  end.

(** The count a call reads under a key. *)
Definition counter (s : gmap string entry) (key : string) : Z :=
  parseCount (redis_get s key).

(** The clock is read once per call: [date] is that reading. *)
Definition checkAnonQuota (anonId : string) (date : Date) : redis quota :=
  let key := getAnonQuotaKey anonId date in
  let ttl := getSecondsUntilMidnight date in
  await current ← GET key;
  let count := parseCount current in
  if 10 <=? count then Ret (Quota false 0)
  else
    await _ ← MULTI [INCR key; EXPIRE key ttl];
    Ret (Quota true (10 - count - 1)).

Definition checkUserQuota (userId : string) (date : Date) : redis quota :=
  let key := getUserQuotaKey userId date in
  let ttl := getSecondsUntilMidnight date in
  await current ← GET key;
  let count := parseCount current in
  if 20 <=? count then Ret (Quota false 0)
  else
    await _ ← MULTI [INCR key; EXPIRE key ttl];
    Ret (Quota true (20 - count - 1)).

Definition checkIpQuota (ip : string) (isAuthenticated : bool) (date : Date) : redis quota :=
  let key := getIpQuotaKey ip date in
  let ttl := getSecondsUntilMidnight date in
  let limit := if isAuthenticated then 60 else 30 in
  await current ← GET key;
  let count := parseCount current in
  if limit <=? count then Ret (Quota false 0)
  else
    await _ ← MULTI [INCR key; EXPIRE key ttl];
    Ret (Quota true (limit - count - 1)).

Definition linkAnonQuota (userId anonId : string) (date : Date) : redis link_result :=
  let linkKey := getLinkAnonKey userId anonId date in
  let anonKey := getAnonQuotaKey anonId date in
  let userKey := getUserQuotaKey userId date in
  let ttl := getSecondsUntilMidnight date in
  await alreadyLinked ← EXISTS linkKey;
  if alreadyLinked then Ret (LinkResult false 0)
  else
    await anonCount ← GET anonKey;
    let count := parseCount anonCount in
    if count =? 0 then Ret (LinkResult false 0)
    else
      await _ ← MULTI [INCRBY userKey count; EXPIRE userKey ttl; SETEX linkKey ttl 1];
      Ret (LinkResult true count).

(** The specification's [checkAndIncrement(kind, identityKey, ceiling)] is
    this family of three functions; the ceiling is fixed by the kind. *)
Inductive kind : Type :=
  | Anonymous
  | User
  | Ip (isAuthenticated : bool).

Definition ceiling (k : kind) : Z :=
  match k with
  | Anonymous => 10
  | User => 20
  | Ip isAuthenticated => if isAuthenticated then 60 else 30
  end.

Definition quotaKey (k : kind) (identityKey : string) (date : Date) : string :=
  match k with
  | Anonymous => getAnonQuotaKey identityKey date
  | User => getUserQuotaKey identityKey date
  | Ip _ => getIpQuotaKey identityKey date
  end.

Definition checkAndIncrement (k : kind) (identityKey : string) (date : Date) : redis quota :=
  match k with
  | Anonymous => checkAnonQuota identityKey date
  | User => checkUserQuota identityKey date
  | Ip isAuthenticated => checkIpQuota identityKey isAuthenticated date
  end.

(* ===================================================================== *)
(** ** Sessions ([models/Session]) *)
(* ===================================================================== *)

(** JavaScript truthiness of an optional string: [undefined] and the empty
    string are falsy. *)
Definition truthy (v : option string) : bool :=
  match v with
  | Some s => negb (String.eqb s "")
  | None => false
  end.

Module Session.

(** A key that is absent from the object is [None]. *)
Record ISynopsis : Type := Synopsis {
  goal : option string;
  tone : option string;
  constraints : option string;
  audience : option string;
  style : option string;
  todos : option (list string);
}.

Record ISession : Type := Doc {
  _id : string;
  userId : option string;
  anonId : option string;
  title : option string;
  synopsis : ISynopsis;
  synopsisVersion : Z;
  lastMessageAt : Date;
}.

(** [synopsis: {}] *)
Definition empty : ISynopsis := Synopsis None None None None None None.

(** One key of [{ ...a, ...b }]: the key of [b] when it has one. *)
Definition spreadKey {A : Type} (a b : option A) : option A :=
  match b with
  | Some v => Some v
  | None => a
  end.

(** [{ ...a, ...b }] *)
Definition spread (a b : ISynopsis) : ISynopsis :=
  {| goal := spreadKey (goal a) (goal b);
     tone := spreadKey (tone a) (tone b);
     constraints := spreadKey (constraints a) (constraints b);
     audience := spreadKey (audience a) (audience b);
     style := spreadKey (style a) (style b);
     todos := spreadKey (todos a) (todos b) |}.

(** What a field-wise merge does to one key: an omitted key keeps its
    value, a supplied one takes the new value. *)
Definition mergedKey {A : Type} (old new result : option A) : Prop :=
  (new = None → result = old) ∧ (∀ v, new = Some v → result = Some v).

(** [sessionSchema.methods.updateSynopsis], on the document in memory;
    [now] is [new Date()]. *)
Definition updateSynopsis (this : ISession) (newSynopsis : ISynopsis) (now : Date) : ISession :=
  {| _id := _id this;
     userId := userId this;
     anonId := anonId this;
     title := title this;
     synopsis := spread (synopsis this) newSynopsis;
     synopsisVersion := synopsisVersion this + 1;
     lastMessageAt := now |}.

(** The document that [sessionSchema.statics.createSession] builds and
    [save] returns; [newId] is the [_id] the store gives it.  The schema
    declares [todos] as an array, which mongoose starts as the empty array
    in the [synopsis: {}] it is given. *)
Definition createSession (userId : option string) (title : option string)
    (anonId : option string) (newId : string) (now : Date) : ISession :=
  {| _id := newId;
     userId := userId;
     anonId := anonId;
     title := title;
     synopsis := Synopsis None None None None None (Some []);
     synopsisVersion := 0;
     lastMessageAt := now |}.

(** A filter [{ _id, userId?, anonId? }]: a key that is absent
    constrains nothing, a present one must equal the document's. *)
Record Query : Type := Filter {
  q_id : string;
  q_userId : option string;
  q_anonId : option string;
}.

Definition keyMatches (q : option string) (field : option string) : bool :=
  match q with
  | Some v => bool_decide (field = Some v)
  | None => true
  end.

Definition matches (q : Query) (doc : ISession) : bool :=
  String.eqb (_id doc) (q_id q)
  && keyMatches (q_userId q) (userId doc)
  && keyMatches (q_anonId q) (anonId doc).

Definition findOne (q : Query) (docs : list ISession) : option ISession :=
  List.find (matches q) docs.

(** [doc.save()] of a document that is already stored: it replaces the
    stored document of that [_id] (an [_id] is unique in a collection). *)
Definition save (doc : ISession) (docs : list ISession) : list ISession :=
  (λ d, if String.eqb (_id d) (_id doc) then doc else d) <$> docs.

(** Exactly one of the two owner fields is set. *)
Definition oneOwner (doc : ISession) : bool :=
  xorb (bool_decide (is_Some (userId doc))) (bool_decide (is_Some (anonId doc))).

(** [sessionSchema.methods.addTodo]: an absent list starts empty; the
    todo is pushed, and the document saved, only if the list does not
    include it. *)
Definition addTodo (this : ISession) (todo : string) (now : Date) : ISession :=
  let list := default [] (todos (synopsis this)) in
  if bool_decide (todo ∈ list) then this
  else
    {| _id := _id this;
       userId := userId this;
       anonId := anonId this;
       title := title this;
       synopsis :=
         {| goal := goal (synopsis this);
            tone := tone (synopsis this);
            constraints := constraints (synopsis this);
            audience := audience (synopsis this);
            style := style (synopsis this);
            todos := Some (list ++ [todo]) |};
       synopsisVersion := synopsisVersion this + 1;
       lastMessageAt := now |}.

(** [array.indexOf(x)]: the first index that holds [x]. *)
Definition indexOf (x : string) (l : list string) : option nat :=
  fst <$> list_find (λ y, y = x) l.

(** [sessionSchema.methods.removeTodo]: [splice(index, 1)] at the first
    index of the todo, when there is one. *)
Definition removeTodo (this : ISession) (todo : string) (now : Date) : ISession :=
  match todos (synopsis this) with
  | Some list =>
      match indexOf todo list with
      | Some index =>
          {| _id := _id this;
             userId := userId this;
             anonId := anonId this;
             title := title this;
             synopsis :=
               {| goal := goal (synopsis this);
                  tone := tone (synopsis this);
                  constraints := constraints (synopsis this);
                  audience := audience (synopsis this);
                  style := style (synopsis this);
                  todos := Some (delete index list) |};
             synopsisVersion := synopsisVersion this + 1;
             lastMessageAt := now |}
      | None => this
      end
  | None => this
  end.



End Session.

(* ===================================================================== *)
(** ** Prompt records ([models/Prompt]) *)
(* ===================================================================== *)

Module Prompt.

Record IContextUsed : Type := ContextUsed { lastTurns : nat; synopsisChars : nat }.

Record ITokens : Type := Tokens { tokens_in : Z; tokens_out : Z }.

Record IPrompt : Type := Doc {
  _id : string;
  userId : option string;
  sessionId : option string;
  original : string;
  enhanced : string;
  useHistory : bool;
  contextUsed : IContextUsed;
  model : string;
  latencyMs : Z;
  tokens : ITokens;
  accepted : option bool;
}.

(** [Prompt.find({ userId })] *)
Definition findByUser (user : string) (docs : list IPrompt) : list IPrompt :=
  filter (λ p, userId p = Some user) docs.


Definition setUser (user : string) (p : IPrompt) : IPrompt :=
  {| _id := _id p; userId := Some user; sessionId := sessionId p;
     original := original p; enhanced := enhanced p; useHistory := useHistory p;
     contextUsed := contextUsed p; model := model p; latencyMs := latencyMs p;
     tokens := tokens p; accepted := accepted p |}.

(** [Prompt.updateMany({ sessionId }, { userId, anonId: undefined })]:
    the schema has no [anonId] path, so [userId] is all the update sets. *)
Definition updateMany (session : string) (user : string) (docs : list IPrompt) : list IPrompt :=
  (λ p, if bool_decide (sessionId p = Some session) then setUser user p else p) <$> docs.


End Prompt.

(* ===================================================================== *)
(** ** Requests and the session routes
       ([middleware/anonId], [routes/session], [routes/enhance]) *)
(* ===================================================================== *)

Module Request.

(** What the handlers read of a request: the [pe_anon_id] cookie, the
    user that [requireAuth]/[requireAuthOptional] found for the access
    token (if any), and the anonymous id the middleware attached. *)
Record t : Type := Req {
  cookie : option string;
  userId : option string;
  anonId : option string;
}.

End Request.

(** The [anonId] middleware, mounted on every route with [app.use]:
    [uuid] is the value [uuidv4()] would return. *)
Definition anonIdMiddleware (uuid : string) (req : Request.t) : Request.t :=
  if truthy (Request.cookie req)
  then Request.Req (Request.cookie req) (Request.userId req) (Request.cookie req)
  else Request.Req (Request.cookie req) (Request.userId req) (Some uuid).

Record DB : Type := Collections {
  sessions : list Session.ISession;
  prompts : list Prompt.IPrompt;
}.

Inductive response (A : Type) : Type :=
  | Json (status : Z) (body : A)
  | Error (status : Z) (error : string).

Arguments Json {A} status body.
Arguments Error {A} status error.

(** [POST /session] *)
Definition postSession (req : Request.t) (title : option string)
    (newId : string) (now : Date) (db : DB) : response Session.ISession * DB :=
  let userId := Request.userId req in
  let anonId := Request.anonId req in
  let session := Session.createSession userId title anonId newId now in
  (Json 201 session, Collections (sessions db ++ [session]) (prompts db)).

(** The session step of [POST /enhance]: the id of the session the request
    goes on with, and the store after the auto-creation. *)
Definition enhanceSession (req : Request.t) (sessionId : option string)
    (autoCreateSession : bool) (newId : string) (now : Date) (db : DB)
    : option string * DB :=
  let userId := Request.userId req in
  let anonId := Request.anonId req in
  if autoCreateSession && negb (truthy sessionId) then
    let autoSession := Session.createSession userId None anonId newId now in
    (Some (Session._id autoSession),
     Collections (sessions db ++ [autoSession]) (prompts db))
  else (sessionId, db).

(** [GET /session/:id], up to the lookup that decides between the session
    and 404 (the handler then lists the session's recent prompts).  The
    id is one that mongoose casts to an ObjectId, as the ids of the stored
    sessions are; on any other string the lookup throws and the reply is
    500. *)
Definition getSession (req : Request.t) (sessionId : string) (db : DB)
    : response Session.ISession :=
  let userId := Request.userId req in
  if truthy userId then
    match Session.findOne (Session.Filter sessionId userId None) (sessions db) with
    | Some session => Json 200 session
    | None => Error 404 "Session not found"
    end
  else
    let anonId := Request.anonId req in
    if truthy anonId then
      match Session.findOne (Session.Filter sessionId None anonId) (sessions db) with
      | Some session => Json 200 session
      | None => Error 404 "Session not found"
      end
    else Error 404 "Session not found".

(** [POST /session/:id/merge], behind [requireAuth]; for an id that
    mongoose casts to an ObjectId, as for [GET /session/:id]. *)
Definition mergeSession (req : Request.t) (sessionId : string) (db : DB)
    : response string * DB :=
  match Request.userId req with
  | None => (Error 401 "Access token required", db)
  | Some userId =>
      let anonId := Request.anonId req in
      if negb (truthy anonId) then (Error 400 "No anonymous session to merge", db)
      else
        match Session.findOne (Session.Filter sessionId None anonId) (sessions db) with
        | None => (Error 404 "Session not found", db)
        | Some session =>
            let session' :=
              Session.Doc (Session._id session) (Some userId) None
                (Session.title session) (Session.synopsis session)
                (Session.synopsisVersion session) (Session.lastMessageAt session) in
            let sessions' := Session.save session' (sessions db) in
            let prompts' := Prompt.updateMany sessionId userId (prompts db) in
            (Json 200 (Session._id session'), Collections sessions' prompts')
        end
  end.

(* ===================================================================== *)
(** ** Follow-up classifier and context builder ([services/context]) *)
(* ===================================================================== *)

(** The two shapes of pattern the classifier uses: [/^(a|b|...)/i] and
    [/s$/]. *)
Inductive marker : Type :=
  | StartsWithAny (alternatives : list string)
  | EndsWith (suffix : string).

Definition toLower (c : Ascii.ascii) : Ascii.ascii :=
  let n := Ascii.N_of_ascii c in
  if ((65 <=? n) && (n <=? 90))%N then Ascii.ascii_of_N (n + 32) else c.

(** [s] starts with [pattern], letter case ignored. *)
Fixpoint startsWithI (pattern s : string) : bool :=
  match pattern, s with
  | EmptyString, _ => true
  | String _ _, EmptyString => false
  | String p pattern', String c s' =>
      Ascii.eqb (toLower p) (toLower c) && startsWithI pattern' s'
  end.

Definition endsWith (suffix s : string) : bool :=
  let n := String.length s in
  let k := String.length suffix in
  (k <=? n)%nat && String.eqb (String.substring (n - k) k s) suffix.

Definition test (m : marker) (s : string) : bool :=
  match m with
  | StartsWithAny alternatives => existsb (λ a, startsWithI a s) alternatives
  | EndsWith suffix => endsWith suffix s
  end.

Definition followUpMarkers : list marker :=
  [ StartsWithAny ["continue"; "keep going"; "more"; "next"; "and then"; "also";
                   "additionally"; "furthermore"; "moreover"];
    StartsWithAny ["what about"; "how about"; "can you"; "could you"; "would you";
                   "please"];
    StartsWithAny ["but"; "however"; "though"; "although"; "except"; "unless"];
    StartsWithAny ["yes"; "no"; "ok"; "okay"; "sure"; "absolutely"; "definitely"];
    StartsWithAny ["thanks"; "thank you"; "thx"];
    EndsWith "?" ].

(** Whether two patterns agree, letter case ignored, as far as both go:
    only then can one text start with both. *)
Fixpoint agreeI (a b : string) : bool :=
  match a, b with
  | String x a', String y b' => Ascii.eqb (toLower x) (toLower y) && agreeI a' b'
  | _, _ => true
  end.

Record classification : Type := Classification { isFollowUp : bool; confidence : Q }.

(** The loop [for (const marker of markers) if (marker.test(prompt)) score += 1]. *)
Definition score (markers : list marker) (prompt : string) : nat :=
  foldl (λ followUpScore m, if test m prompt then S followUpScore else followUpScore)
        0%nat markers.

Definition classifyInput (prompt : string) : classification :=
  let followUpScore := score followUpMarkers prompt in
  {| isFollowUp := (1 <=? followUpScore)%nat;
     confidence :=
       Qmin (inject_Z (Z.of_nat followUpScore)
             / inject_Z (Z.of_nat (length followUpMarkers))) 1 |}.

Inductive role : Type := user | assistant.

Definition roleName (r : role) : string :=
  match r with
  | user => "user"
  | assistant => "assistant"
  end.

Record message : Type := Message { msg_role : role; content : string }.

Record context_result : Type := ContextResult {
  context : string;
  contextUsed : Prompt.IContextUsed;
}.

Definition newline : string := String (Ascii.ascii_of_nat 10) EmptyString.

(** [array.slice(-n)] *)
Definition sliceLast {A : Type} (n : nat) (l : list A) : list A :=
  drop (length l - n) l.

(** One [if (synopsis.field) { synopsisParts.push(...); synopsisChars += ... }]. *)
Definition pushField (label : string) (field : option string)
    (acc : list string * nat) : list string * nat :=
  match field with
  | Some v =>
      if truthy field
      then (fst acc ++ [label +:+ v], (snd acc + String.length v)%nat)
      else acc
  | None => acc
  end.

Definition pushTodos (todos : option (list string))
    (acc : list string * nat) : list string * nat :=
  match todos with
  | Some l =>
      if (0 <? length l)%nat
      then (fst acc ++ ["TODOs: " +:+ String.concat ", " l],
            (snd acc + String.length (String.concat ", " l))%nat)
      else acc
  | None => acc
  end.

(** The synopsis lines and the character count of their values. *)
Definition synopsisParts (synopsis : Session.ISynopsis) : list string * nat :=
  let acc := ([], 0%nat) in
  let acc := pushField "Goal: " (Session.goal synopsis) acc in
  let acc := pushField "Tone: " (Session.tone synopsis) acc in
  let acc := pushField "Constraints: " (Session.constraints synopsis) acc in
  let acc := pushField "Audience: " (Session.audience synopsis) acc in
  let acc := pushField "Style: " (Session.style synopsis) acc in
  pushTodos (Session.todos synopsis) acc.

Definition renderMessage (msg : message) : string :=
  roleName (msg_role msg) +:+ ": " +:+ content msg.

(** The assembled text, before the clamp: the local [context]. *)
Definition assembled (synopsis : Session.ISynopsis) (lastMessages : list message) : string :=
  let parts := fst (synopsisParts synopsis) in
  let contextParts :=
    if (0 <? length parts)%nat
    then ["Session Context:" +:+ newline +:+ String.concat newline parts]
    else [] in
  let recentMessages := sliceLast 6 lastMessages in
  let contextParts :=
    if (0 <? length recentMessages)%nat
    then contextParts ++
         ["Recent conversation:" +:+ newline
          +:+ String.concat newline (renderMessage <$> recentMessages)]
    else contextParts in
  String.concat (newline +:+ newline) contextParts.

Definition maxContextLength : nat := 2000.

Definition buildContext (synopsis : Session.ISynopsis) (lastMessages : list message)
    : context_result :=
  let synopsisChars := snd (synopsisParts synopsis) in
  let recentMessages := sliceLast 6 lastMessages in
  let context := assembled synopsis lastMessages in
  let clampedContext :=
    if (maxContextLength <? String.length context)%nat
    then String.substring 0 maxContextLength context +:+ "..."
    else context in
  {| context := clampedContext;
     contextUsed := Prompt.ContextUsed (length recentMessages) synopsisChars |}.

(* ===================================================================== *)
(** ** Usage snapshots and the rate-limit middleware
       ([services/redis], [middleware/limitEnhance]) *)
(* ===================================================================== *)

(** Sequencing of two asynchronous functions: [f] goes on with the reply
    of [p]. *)
Fixpoint bind {A B : Type} (p : redis A) (f : A → redis B) : redis B :=
  match p with
  | Ret a => f a
  | GET key k => GET key (λ v, bind (k v) f)
  | EXISTS key k => EXISTS key (λ v, bind (k v) f)
  | MULTI cmds k => MULTI cmds (λ v, bind (k v) f)
  end.

Module Usage.

Record t : Type := Make { used : Z; limit : Z; remaining : Z }.

End Usage.

Definition getUserQuotaUsage (userId : string) (date : Date) : redis Usage.t :=
  let key := getUserQuotaKey userId date in
  await current ← GET key;
  let used := parseCount current in
  let limit := 20 in
  Ret (Usage.Make used limit (Z.max 0 (limit - used))).

Definition getAnonQuotaUsage (anonId : string) (date : Date) : redis Usage.t :=
  let key := getAnonQuotaKey anonId date in
  await current ← GET key;
  let used := parseCount current in
  let limit := 10 in
  Ret (Usage.Make used limit (Z.max 0 (limit - used))).

(** What the middleware does with the request: one of the two error
    replies, or [next()] with the two rate-limit headers set. *)
Inductive verdict : Type :=
  | SendError (message : string) (statusCode : Z)
  | SendRateLimit (message : string) (retryAfter : string)
  | Next (rateLimitRemaining : string) (rateLimitLimit : string).

(** [limitEnhance]: [clientIp] is [req.ip || req.connection.remoteAddress
    || 'unknown']; the two checks read the clock on their own, [dateIp]
    and then [dateId]. *)
Definition limitEnhance (req : Request.t) (clientIp : string) (dateIp dateId : Date)
    : redis verdict :=
  let userId := Request.userId req in
  let anonId := Request.anonId req in
  match anonId with
  | None => Ret (SendError "Anonymous ID not set" 500)
  | Some anon =>
      if negb (truthy anonId) then Ret (SendError "Anonymous ID not set" 500)
      else
        await ipQuota ← bind (checkIpQuota clientIp (truthy userId) dateIp);
        if negb (allowed ipQuota)
        then Ret (SendRateLimit "Too many requests from this IP address" "tomorrow")
        else
          match userId with
          | Some usr =>
              if truthy userId then
                await userQuota ← bind (checkUserQuota usr dateId);
                if negb (allowed userQuota)
                then Ret (SendRateLimit
                            "You have reached your daily limit of 20 enhancements"
                            "tomorrow")
                else Ret (Next (pretty (remaining userQuota)) "20")
              else
                await anonQuota ← bind (checkAnonQuota anon dateId);
                if negb (allowed anonQuota)
                then Ret (SendRateLimit
                            "You have reached your daily limit of 10 enhancements. Sign up for more!"
                            "tomorrow")
                else Ret (Next (pretty (remaining anonQuota)) "10")
          | None =>
              await anonQuota ← bind (checkAnonQuota anon dateId);
              if negb (allowed anonQuota)
              then Ret (SendRateLimit
                          "You have reached your daily limit of 10 enhancements. Sign up for more!"
                          "tomorrow")
              else Ret (Next (pretty (remaining anonQuota)) "10")
          end
  end.

(** The identity whose counter the middleware checks: the user when the
    request has one, the anonymous id otherwise. *)
Definition identityOf (req : Request.t) : option (kind * string) :=
  match Request.anonId req with
  | Some anon =>
      if truthy (Request.anonId req) then
        match Request.userId req with
        | Some usr => if truthy (Request.userId req) then Some (User, usr)
                      else Some (Anonymous, anon)
        | None => Some (Anonymous, anon)
        end
      else None
  | None => None
  end.

(** The message of the 429 reply of an exhausted identity. *)
Definition limitMessage (k : kind) : string :=
  match k with
  | User => "You have reached your daily limit of 20 enhancements"
  | _ => "You have reached your daily limit of 10 enhancements. Sign up for more!"
  end.

(** The states of a quota check of one identity on the day of [d0]: it is
    about to read; or it has read a count below the ceiling and is about
    to write; or it has replied.  [P] is what is known of the date of a
    check that has not written yet, and [bound] is above the count that a
    refused check read. *)
Inductive inFlight (k : kind) (identityKey : string) (d0 : Date)
    (P : Date → Prop) (bound : Z) : redis quota → Prop :=
  | ToRead (date : Date) :
      sameDay d0 date →
      P date →
      inFlight k identityKey d0 P bound (checkAndIncrement k identityKey date)
  | ToWrite (date : Date) (r : Z) :
      sameDay d0 date →
      P date →
      inFlight k identityKey d0 P bound
        (MULTI [INCR (quotaKey k identityKey date);
                EXPIRE (quotaKey k identityKey date) (getSecondsUntilMidnight date)]
           (λ _, Ret (Quota true r)))
  | RepliedRefused :
      ceiling k <= bound →
      inFlight k identityKey d0 P bound (Ret (Quota false 0))
  | RepliedAllowed (r : Z) :
      inFlight k identityKey d0 P bound (Ret (Quota true r)).

(** Whether a call has replied, and with [allowed]. *)
Definition repliedAllowed (p : redis quota) : bool :=
  match returned p with
  | Some r => allowed r
  | None => false
  end.

Definition replied {A : Type} (p : redis A) : bool :=
  match returned p with
  | Some _ => true
  | None => false
  end.

(** 1 for a call that has replied with [allowed], 0 for any other. *)
Definition tally (p : redis quota) : Z := if repliedAllowed p then 1 else 0.

(** The number of calls that were allowed so far. *)
Definition allowedCount (calls : list (redis quota)) : nat :=
  length (filter (λ p, repliedAllowed p = true) calls).

(* ===================================================================== *)
(** ** Prompt verification ([services/verify]) *)
(* ===================================================================== *)

(** [s] contains [pattern] somewhere, letter case ignored: an unanchored
    [/pattern/i]. *)
Fixpoint includesI (pattern s : string) : bool :=
  startsWithI pattern s
  || match s with
     | EmptyString => false
     | String _ s' => includesI pattern s'
     end.

(** [/(a|b|...)/i.test(s)] *)
Definition testAny (alternatives : list string) (s : string) : bool :=
  existsb (λ a, includesI a s) alternatives.

Definition requiredElements : list string := ["task"; "object"; "output"].

(** The regular expressions of an element, each by its alternatives. *)
Definition elementPatterns (element : string) : list (list string) :=
  if String.eqb element "task" then
    [ ["write"; "create"; "generate"; "produce"; "develop"; "build"; "make";
       "compose"; "draft"; "formulate"];
      ["analyze"; "examine"; "review"; "evaluate"; "assess"; "study"; "investigate"];
      ["explain"; "describe"; "summarize"; "outline"; "detail"; "elaborate"] ]
  else if String.eqb element "object" then
    [ ["about"; "regarding"; "concerning"; "on"; "for"; "of"];
      ["document"; "text"; "content"; "material"; "information"; "data"];
      ["topic"; "subject"; "theme"; "issue"; "matter"] ]
  else if String.eqb element "output" then
    [ ["format"; "style"; "tone"; "voice"; "approach"; "method"];
      ["length"; "size"; "extent"; "scope"; "detail"; "level"];
      ["audience"; "reader"; "viewer"; "user"; "target"];
      ["purpose"; "goal"; "objective"; "aim"; "intention"] ]
  else [].

(** The inner loop: whether one of the element's patterns matches. *)
Definition found (element : string) (prompt : string) : bool :=
  existsb (λ alternatives, testAny alternatives prompt) (elementPatterns element).

Record verification : Type := Verification {
  isValid : bool;
  missing : list string;
  verify_score : Q;
}.

(** The outer loop, over the elements that are left: the missing ones, in
    order, and the count of the found ones. *)
Fixpoint verifyLoop (elements : list string) (prompt : string) : list string * nat :=
  match elements with
  | [] => ([], 0%nat)
  | element :: elements' =>
      let '(missing, score) := verifyLoop elements' prompt in
      if found element prompt then (missing, S score) else (element :: missing, score)
  end.

Definition verifyPrompt (prompt : string) : verification :=
  let '(missing, score) := verifyLoop requiredElements prompt in
  {| isValid := (length missing =? 0)%nat;
     missing := missing;
     verify_score :=
       inject_Z (Z.of_nat score) / inject_Z (Z.of_nat (length requiredElements)) |}.

(* ===================================================================== *)
(** ** The access token of a request ([middleware/auth]) *)
(* ===================================================================== *)

(** [extractToken]: the [Authorization] header and the [access_token]
    cookie of the request. *)
Definition extractToken (authorization accessTokenCookie : option string) : option string :=
  match authorization with
  | Some authHeader =>
      if truthy authorization && String.prefix "Bearer " authHeader
      then Some (String.substring 7 (String.length authHeader - 7) authHeader)
      else if truthy accessTokenCookie then accessTokenCookie else None
  | None => if truthy accessTokenCookie then accessTokenCookie else None
  end.

(* ===================================================================== *)
(** ** Updating and deleting a session ([routes/session]) *)
(* ===================================================================== *)


(** The [_id] of a session and the [sessionId] of a prompt are ObjectIds,
    and the route takes any string for [:id].  Mongoose casts the string
    that a filter gives for such a path before it sends the query, and
    throws a CastError when the string is no ObjectId: nothing is read or
    written, and the handler's [catch] replies 500.  The handlers below
    take as [castObjectId] the strings that mongoose casts. *)

(** The hexadecimal form of an ObjectId, which every id given by the
    store has and which mongoose casts: 24 characters out of
    [0-9a-fA-F]. *)
Definition isHexDigit (c : Ascii.ascii) : bool :=
  let n := Ascii.N_of_ascii c in
  (((48 <=? n) && (n <=? 57)) || ((65 <=? n) && (n <=? 70))
   || ((97 <=? n) && (n <=? 102)))%N.

Definition isObjectIdHex (s : string) : bool :=
  (String.length s =? 24)%nat && forallb isHexDigit (String.list_ascii_of_string s).



(* ===================================================================== *)
(** ** The enhancement request ([routes/enhance]) *)
(* ===================================================================== *)

Record enhancement : Type := Enhancement {
  enh_enhancedPrompt : string;
  enh_tokens : Prompt.ITokens;
  enh_model : string;
}.

Record enhance_body : Type := EnhanceBody {
  body_prompt : string;
  body_sessionId : option string;
  body_useHistory : bool;
  body_lastMessages : option (list message);
  body_autoCreateSession : bool;
}.

Record enhance_reply : Type := EnhanceReply {
  reply_enhancedPrompt : string;
  reply_latencyMs : Z;
  reply_tokens : Prompt.ITokens;
  reply_promptId : string;
  reply_sessionId : option string;
  reply_useHistory : bool;
  reply_contextUsed : Prompt.IContextUsed;
}.

(** What the handler does besides the reply and the writes: the
    anonymous cookie it sets and the synopsis job it enqueues. *)
Record enhance_effects : Type := EnhanceEffects {
  setAnonIdCookie : option string;
  enqueueSynopsisUpdate : option (string * list message);
}.

(** The context step of the handler: the session found for the caller,
    the context built from it, and what was used of it.  On a
    [sessionId] that is no ObjectId [findOne] throws; the handler catches
    that and goes on without a session, as it does here when the id is
    not that of a stored session. *)
Definition enhanceContext (req : Request.t) (useHistory isFollowUp : bool)
    (finalSessionId : option string) (lastMessages : option (list message)) (db : DB)
    : option Session.ISession * option string * Prompt.IContextUsed :=
  let userId := Request.userId req in
  let anonId := Request.anonId req in
  match finalSessionId with
  | Some id =>
      if useHistory && isFollowUp && truthy finalSessionId then
        let query :=
          if truthy userId then Session.Filter id userId None
          else if truthy anonId then Session.Filter id None anonId
          else Session.Filter id None None in
        match Session.findOne query (sessions db) with
        | Some session =>
            let contextResult :=
              buildContext (Session.synopsis session) (default [] lastMessages) in
            (Some session, Some (context contextResult), contextUsed contextResult)
        | None => (None, None, Prompt.ContextUsed 0 0)
        end
      else (None, None, Prompt.ContextUsed 0 0)
  | None => (None, None, Prompt.ContextUsed 0 0)
  end.

(** The handler of [POST /enhance], after the middlewares.  The two calls
    to the model are its parameters: [enhancePrompt], which may throw
    ([None]), and [patchPrompt], which catches its own errors.
    [savePrompt] tells the documents that [Prompt.createPrompt] saves: it
    throws on the others, those that fail the validation of the schema (a
    [sessionId] that is no ObjectId, an [enhanced] text of more than
    10000 characters), and the handler's [catch] replies 500.
    [newSessionId] and [newPromptId] are the ids the store gives to the
    documents created; the four dates are the clock at the start, at the
    creation of the session, at the write of the prompt and at the reply.
    The auto-creation of the session is taken to succeed. *)
Definition postEnhance
    (enhancePrompt : string → option string → option (list message) → option enhancement)
    (patchPrompt : string → string → string)
    (savePrompt : Prompt.IPrompt → bool)
    (req : Request.t) (body : enhance_body)
    (newSessionId newPromptId : string)
    (startTime createTime endTime replyTime : Date) (db : DB)
    : response enhance_reply * enhance_effects * DB :=
  let prompt := body_prompt body in
  let useHistory := body_useHistory body in
  let lastMessages := body_lastMessages body in
  let userId := Request.userId req in
  let anonId := Request.anonId req in
  let isFollowUp := isFollowUp (classifyInput prompt) in
  let '(finalSessionId, db1) :=
    enhanceSession req (body_sessionId body) (body_autoCreateSession body)
      newSessionId createTime db in
  let '(session, context, contextUsed) :=
    enhanceContext req useHistory isFollowUp finalSessionId lastMessages db1 in
  match enhancePrompt prompt context lastMessages with
  | None => (Error 500 "Failed to enhance prompt", EnhanceEffects None None, db1)
  | Some enhancement =>
      let verification := verifyPrompt (enh_enhancedPrompt enhancement) in
      let finalPrompt :=
        if negb (isValid verification)
        then patchPrompt (enh_enhancedPrompt enhancement) prompt
        else enh_enhancedPrompt enhancement in
      let promptDoc :=
        Prompt.Doc newPromptId userId finalSessionId prompt finalPrompt
          (useHistory && isFollowUp) contextUsed (enh_model enhancement)
          (endTime - startTime) (enh_tokens enhancement) None in
      let cookie :=
        if negb (truthy userId) && truthy anonId && negb (truthy (Request.cookie req))
        then anonId else None in
      let job :=
        match finalSessionId, session with
        | Some id, Some _ =>
            if isFollowUp && truthy finalSessionId
            then Some (id, default [] lastMessages) else None
        | _, _ => None
        end in
      if negb (savePrompt promptDoc)
      then (Error 500 "Failed to enhance prompt", EnhanceEffects None None, db1)
      else
        (Json 200
           (EnhanceReply finalPrompt (replyTime - startTime) (enh_tokens enhancement)
              newPromptId (if truthy finalSessionId then finalSessionId else None)
              (useHistory && isFollowUp) contextUsed),
         EnhanceEffects cookie job,
         Collections (sessions db1) (prompts db1 ++ [promptDoc]))
  end.

(* ===================================================================== *)
(** ** Checks of the model against the repository's tests and examples *)
(* ===================================================================== *)

Example getDayKey_20240115 : getDayKey 1705314600000 = "20240115".
Proof. vm_compute. reflexivity. Qed.

Example getDayKey_20241231 : getDayKey 1735689599000 = "20241231".
Proof. vm_compute. reflexivity. Qed.

Example getDayKey_20240229 : getDayKey 1709164800000 = "20240229".
Proof. vm_compute. reflexivity. Qed.

(** 2024-01-15T23:59:50Z is ten seconds before midnight. *)
Example getSecondsUntilMidnight_235950 : getSecondsUntilMidnight 1705363190000 = 10.
Proof. vm_compute. reflexivity. Qed.

(** 2024-01-15T23:59:59.500Z is in the last second of its day. *)
Example getSecondsUntilMidnight_last_second : getSecondsUntilMidnight 1705363199500 = 0.
Proof. vm_compute. reflexivity. Qed.

(** Redis on a timeout of zero: [EXPIRE] deletes the key, [SETEX] is
    refused. *)
Example expire_zero_deletes :
  exec_multi [INCR "k"; EXPIRE "k" 0] (<["k" := Entry 9 (Some 60)]> ∅) = ∅.
Proof. vm_compute. reflexivity. Qed.

Example setex_zero_refused : exec_multi [SETEX "k" 0 1] ∅ = ∅.
Proof. vm_compute. reflexivity. Qed.

Example isObjectIdHex_examples :
  isObjectIdHex "65a4f0c2e13b4a0012345678" = true ∧ isObjectIdHex "sess_456" = false.
Proof. vm_compute. done. Qed.

Example getAnonQuotaKey_test :
  getAnonQuotaKey "test-anon-123" 1705314600000 = "enh:anon:test-anon-123:20240115".
Proof. vm_compute. reflexivity. Qed.

(* ===================================================================== *)
(** ** Day keys and key names *)
(* ===================================================================== *)

Lemma getDayKey_sameDay d0 d : sameDay d0 d → getDayKey d = getDayKey d0.
Proof.
  unfold sameDay, getDayKey, getUTCFullYear, getUTCMonth, getUTCDate.
  by intros ->.
Qed.

Lemma quotaKey_sameDay k identityKey d0 d :
  sameDay d0 d → quotaKey k identityKey d = quotaKey k identityKey d0.
Proof.
  intros H. destruct k; simpl;
    unfold getAnonQuotaKey, getUserQuotaKey, getIpQuotaKey;
    by rewrite (getDayKey_sameDay _ _ H).
Qed.

Lemma getLinkAnonKey_sameDay userId anonId d0 d :
  sameDay d0 d → getLinkAnonKey userId anonId d = getLinkAnonKey userId anonId d0.
Proof. intros H. unfold getLinkAnonKey. by rewrite (getDayKey_sameDay _ _ H). Qed.

(** The three key families never collide, whatever the identifiers. *)
Lemma anonKey_ne_userKey anonId userId d d' :
  getAnonQuotaKey anonId d ≠ getUserQuotaKey userId d'.
Proof. unfold getAnonQuotaKey, getUserQuotaKey. simpl. discriminate. Qed.

Lemma linkKey_ne_userKey u a userId d d' :
  getLinkAnonKey u a d ≠ getUserQuotaKey userId d'.
Proof. unfold getLinkAnonKey, getUserQuotaKey. simpl. discriminate. Qed.

Lemma linkKey_ne_anonKey u a anonId d d' :
  getLinkAnonKey u a d ≠ getAnonQuotaKey anonId d'.
Proof. unfold getLinkAnonKey, getAnonQuotaKey. simpl. discriminate. Qed.

(** The time to live handed to Redis is the whole seconds left in the
    day: counted from the call, it ends in the last second before the
    next UTC midnight or at that midnight. *)
Lemma getSecondsUntilMidnight_range date :
  0 <= getSecondsUntilMidnight date <= 86400
  ∧ (utcDay date + 1) * msPerDay - 1000
    < date + 1000 * getSecondsUntilMidnight date
    <= (utcDay date + 1) * msPerDay.
Proof.
  unfold getSecondsUntilMidnight, utcDay, msPerDay.
  pose proof (Z.div_mod date 86400000 ltac:(lia)) as Hd.
  pose proof (Z.mod_pos_bound date 86400000 ltac:(lia)) as Hm.
  set (q := date / 86400000) in *. set (r := date mod 86400000) in *.
  pose proof (Z.div_mod ((q + 1) * 86400000 - date) 1000 ltac:(lia)) as Hd'.
  pose proof (Z.mod_pos_bound ((q + 1) * 86400000 - date) 1000 ltac:(lia)) as Hm'.
  lia.
Qed.

(** The time to live is zero exactly in the last second of the day. *)
Lemma beforeLastSecond_iff date :
  beforeLastSecond date ↔ date + 1000 <= (utcDay date + 1) * msPerDay.
Proof.
  unfold beforeLastSecond, getSecondsUntilMidnight.
  set (left := (utcDay date + 1) * msPerDay - date).
  pose proof (Z.div_mod left 1000 ltac:(lia)) as Hd.
  pose proof (Z.mod_pos_bound left 1000 ltac:(lia)) as Hm.
  split; intros H; subst left; lia.
Qed.

Lemma last_second_ttl date :
  ¬ beforeLastSecond date → getSecondsUntilMidnight date = 0.
Proof.
  unfold beforeLastSecond. pose proof (getSecondsUntilMidnight_range date). lia.
Qed.

(** A key that is given its time to live by a call made at least a second
    before midnight is still there at every call made, on that day, at
    least a second before midnight: the time to live it recorded does not
    run out between the calls that the properties below are about. *)
Lemma written_key_outlives_calls d0 d d' :
  sameDay d0 d → sameDay d0 d' →
  beforeLastSecond d → beforeLastSecond d' →
  d' < d + 1000 * getSecondsUntilMidnight d.
Proof.
  intros Hd Hd' _ Hb'. apply beforeLastSecond_iff in Hb'.
  pose proof (getSecondsUntilMidnight_range d) as [_ Hr].
  unfold sameDay in Hd, Hd'. rewrite Hd in Hr. rewrite Hd' in Hb'. lia.
Qed.

Lemma written_keys_outlive_calls d0 dates :
  Forall (sameDay d0) dates →
  Forall beforeLastSecond dates →
  ∀ d d', d ∈ dates → d' ∈ dates → d' < d + 1000 * getSecondsUntilMidnight d.
Proof.
  intros Hdays Hbefore d d' Hd Hd'.
  rewrite Forall_forall in Hdays. rewrite Forall_forall in Hbefore.
  apply (written_key_outlives_calls d0); auto.
Qed.

(* ===================================================================== *)
(** ** One call of the quota ledger, run alone *)
(* ===================================================================== *)

Lemma checkAndIncrement_body k identityKey date :
  checkAndIncrement k identityKey date =
  let key := quotaKey k identityKey date in
  let ttl := getSecondsUntilMidnight date in
  await current ← GET key;
  if ceiling k <=? parseCount current then Ret (Quota false 0)
  else
    await _ ← MULTI [INCR key; EXPIRE key ttl];
    Ret (Quota true (ceiling k - parseCount current - 1)).
Proof. destruct k as [| |[]]; reflexivity. Qed.

(** The transaction of a check: with a positive time to live the counter
    is one higher; with none left, the counter is gone. *)
Lemma exec_incr_expire key seconds (s : gmap string entry) :
  0 < seconds →
  exec_multi [INCR key; EXPIRE key seconds] s
  = <[key := Entry (counter s key + 1) (Some seconds)]> s.
Proof.
  intros Hpos. unfold exec_multi, counter, redis_get. simpl. unfold incrby.
  destruct (Z.leb_spec seconds 0) as [Hle|_]; [lia|].
  destruct (s !! key) as [e|] eqn:He; simpl.
  - rewrite lookup_insert_eq. simpl. by rewrite insert_insert_eq.
  - rewrite lookup_insert_eq. simpl. by rewrite insert_insert_eq.
Qed.

Lemma exec_incr_expire_last key seconds (s : gmap string entry) :
  seconds <= 0 →
  exec_multi [INCR key; EXPIRE key seconds] s = delete key s.
Proof.
  intros Hle. unfold exec_multi. simpl. unfold incrby.
  destruct (Z.leb_spec seconds 0) as [_|Hpos]; [|lia].
  destruct (s !! key) as [e|] eqn:He; simpl.
  - rewrite lookup_insert_eq. by rewrite delete_insert_eq.
  - rewrite lookup_insert_eq. by rewrite delete_insert_eq.
Qed.

Lemma counter_delete key (s : gmap string entry) :
  counter (delete key s) key = 0.
Proof. unfold counter, redis_get. by rewrite lookup_delete_eq. Qed.

Lemma counter_insert key e (s : gmap string entry) :
  counter (<[key := e]> s) key = value e.
Proof. unfold counter, redis_get. by rewrite lookup_insert_eq. Qed.

Lemma counter_insert_ne key key' e (s : gmap string entry) :
  key ≠ key' → counter (<[key := e]> s) key' = counter s key'.
Proof. intros H. unfold counter, redis_get. by rewrite lookup_insert_ne. Qed.

Lemma counter_absent key (s : gmap string entry) :
  s !! key = None → counter s key = 0.
Proof. intros H. unfold counter, redis_get. by rewrite H. Qed.

Lemma run_allowed k identityKey date (s : gmap string entry) :
  beforeLastSecond date →
  counter s (quotaKey k identityKey date) < ceiling k →
  run (checkAndIncrement k identityKey date) s
  = (Quota true (ceiling k - counter s (quotaKey k identityKey date) - 1),
     <[quotaKey k identityKey date :=
         Entry (counter s (quotaKey k identityKey date) + 1)
               (Some (getSecondsUntilMidnight date))]> s).
Proof.
  intros Hb Hlt. rewrite checkAndIncrement_body. cbn [run]. fold (counter s (quotaKey k identityKey date)).
  destruct (Z.leb_spec (ceiling k) (counter s (quotaKey k identityKey date))) as [Hle|_]; [lia|].
  cbn [run]. by rewrite exec_incr_expire.
Qed.

(** In the last second of the day the check is allowed as before, and its
    transaction leaves no counter behind. *)
Lemma run_allowed_last k identityKey date (s : gmap string entry) :
  ¬ beforeLastSecond date →
  counter s (quotaKey k identityKey date) < ceiling k →
  run (checkAndIncrement k identityKey date) s
  = (Quota true (ceiling k - counter s (quotaKey k identityKey date) - 1),
     delete (quotaKey k identityKey date) s).
Proof.
  intros Hb Hlt. rewrite checkAndIncrement_body. cbn [run]. fold (counter s (quotaKey k identityKey date)).
  destruct (Z.leb_spec (ceiling k) (counter s (quotaKey k identityKey date))) as [Hle|_]; [lia|].
  cbn [run]. rewrite exec_incr_expire_last; [done|].
  rewrite (last_second_ttl _ Hb). lia.
Qed.

Lemma run_refused k identityKey date (s : gmap string entry) :
  ceiling k <= counter s (quotaKey k identityKey date) →
  run (checkAndIncrement k identityKey date) s = (Quota false 0, s).
Proof.
  intros Hle. rewrite checkAndIncrement_body. cbn [run]. fold (counter s (quotaKey k identityKey date)).
  destruct (Z.leb_spec (ceiling k) (counter s (quotaKey k identityKey date))) as [_|Hlt]; [|lia].
  reflexivity.
Qed.

(** The reply of a check depends on the count it read alone. *)
Lemma run_reply k identityKey date (s : gmap string entry) :
  fst (run (checkAndIncrement k identityKey date) s)
  = if ceiling k <=? counter s (quotaKey k identityKey date) then Quota false 0
    else Quota true (ceiling k - counter s (quotaKey k identityKey date) - 1).
Proof.
  rewrite checkAndIncrement_body. cbn [run].
  fold (counter s (quotaKey k identityKey date)).
  by destruct (ceiling k <=? counter s (quotaKey k identityKey date)).
Qed.

Lemma run_allowed_at k identityKey d0 date (s : gmap string entry) c :
  sameDay d0 date →
  beforeLastSecond date →
  counter s (quotaKey k identityKey d0) = c →
  c < ceiling k →
  run (checkAndIncrement k identityKey date) s
  = (Quota true (ceiling k - c - 1),
     <[quotaKey k identityKey d0 := Entry (c + 1) (Some (getSecondsUntilMidnight date))]> s).
Proof.
  intros Hd Hb <- Hlt. rewrite run_allowed; rewrite ?(quotaKey_sameDay _ _ _ _ Hd); done.
Qed.

Lemma run_refused_at k identityKey d0 date (s : gmap string entry) :
  sameDay d0 date →
  ceiling k <= counter s (quotaKey k identityKey d0) →
  run (checkAndIncrement k identityKey date) s = (Quota false 0, s).
Proof.
  intros Hd Hle. apply run_refused. by rewrite (quotaKey_sameDay _ _ _ _ Hd).
Qed.

(* ===================================================================== *)
(** ** Calls issued one after another *)
(* ===================================================================== *)

Lemma run_each_cons {A : Type} (p : redis A) calls (s : gmap string entry) :
  run_each (p :: calls) s = run p s :: run_each calls (snd (run p s)).
Proof. reflexivity. Qed.

Lemma ceiling_pos k : 0 < ceiling k.
Proof. destruct k as [| |[]]; simpl; lia. Qed.

(** From a counter at [c], the calls are allowed until the ceiling is
    reached and refused from then on. *)
Lemma run_each_flags k identityKey d0 dates :
  ∀ s : gmap string entry,
    Forall (sameDay d0) dates →
    Forall beforeLastSecond dates →
    0 <= counter s (quotaKey k identityKey d0) <= ceiling k →
    allowed <$> (fst <$> run_each (checkAndIncrement k identityKey <$> dates) s)
    = replicate (length dates `min`
                   Z.to_nat (ceiling k - counter s (quotaKey k identityKey d0))) true
      ++ replicate (length dates
                    - Z.to_nat (ceiling k - counter s (quotaKey k identityKey d0))) false.
Proof.
  induction dates as [|d dates IH]; intros s Hdays Hbefore Hc; [done|].
  apply Forall_cons in Hdays as [Hd Hdays].
  apply Forall_cons in Hbefore as [Hb Hbefore].
  rewrite fmap_cons, run_each_cons, !fmap_cons.
  set (key := quotaKey k identityKey d0) in *.
  destruct (Z_lt_le_dec (counter s key) (ceiling k)) as [Hlt|Hge].
  - rewrite (run_allowed_at k identityKey d0 d s (counter s key) Hd Hb eq_refl Hlt).
    cbn [fst snd allowed]. rewrite IH; [|done|done|]; fold key.
    + rewrite counter_insert. cbn [value].
      replace (Z.to_nat (ceiling k - counter s key))
        with (S (Z.to_nat (ceiling k - (counter s key + 1)))) by lia.
      reflexivity.
    + rewrite counter_insert. cbn [value]. lia.
  - rewrite (run_refused_at k identityKey d0 d s Hd Hge).
    cbn [fst snd allowed]. rewrite IH by done. fold key.
    replace (Z.to_nat (ceiling k - counter s key)) with 0%nat by lia.
    rewrite !Nat.min_0_r, !Nat.sub_0_r. reflexivity.
Qed.

Lemma count_flags (replies : list quota) :
  ∀ a b : nat,
    allowed <$> replies = replicate a true ++ replicate b false →
    length (filter (λ r, allowed r = true) replies) = a
    ∧ length (filter (λ r, allowed r = false) replies) = b.
Proof.
  induction replies as [|r replies IH]; intros a b H.
  - destruct a, b; try discriminate. done.
  - rewrite fmap_cons in H. destruct a as [|a]; simpl in H.
    + destruct b as [|b]; [discriminate|]. simpl in H.
      injection H as Hr H. destruct (IH 0%nat b H) as [IH1 IH2].
      rewrite !filter_cons, Hr. simpl. split; [done|]. by rewrite IH2.
    + injection H as Hr H. destruct (IH a b H) as [IH1 IH2].
      rewrite !filter_cons, Hr. simpl. split; [by rewrite IH1|done].
Qed.

(** A call that is alone in flight ends after finitely many round trips,
    with the reply and the store of [run]: the two readings of a call
    agree. *)
Lemma interleave_alone {A : Type} (p : redis A) :
  ∀ s : gmap string entry,
    ∃ n : nat,
      interleave (replicate n 0%nat) [p] s = ([Ret (fst (run p s))], snd (run p s)).
Proof.
  induction p as [a|key k IH|key k IH|cmds k IH]; intros s.
  - by exists 0%nat.
  - destruct (IH (redis_get s key) s) as [n Hn]. exists (S n). exact Hn.
  - destruct (IH (redis_exists s key) s) as [n Hn]. exists (S n). exact Hn.
  - destruct (IH tt (exec_multi cmds s)) as [n Hn]. exists (S n). exact Hn.
Qed.

(** C1 (as amended).  For every identity kind and key and every number
    [extra] of surplus calls: [ceiling + extra] calls of the quota check
    on one UTC day, each made at least one second before the next UTC
    midnight and issued one after another (each call's read and its
    increment-and-expire transaction done before the next call reads),
    starting from an absent counter, allow exactly the first [ceiling] and
    refuse the remaining [extra]; and the time to live that any of the
    calls gives the counter has not run out when any of them is made. *)
Theorem sequential_calls_allow_exactly_ceiling
    (k : kind) (identityKey : string) (d0 : Date) (dates : list Date)
    (extra : nat) (s : gmap string entry) :
  Forall (sameDay d0) dates →
  Forall beforeLastSecond dates →
  s !! quotaKey k identityKey d0 = None →
  length dates = (Z.to_nat (ceiling k) + extra)%nat →
  let replies := fst <$> run_each (checkAndIncrement k identityKey <$> dates) s in
  allowed <$> replies = replicate (Z.to_nat (ceiling k)) true ++ replicate extra false
  ∧ length (filter (λ r, allowed r = true) replies) = Z.to_nat (ceiling k)
  ∧ length (filter (λ r, allowed r = false) replies) = extra
  ∧ (∀ d d', d ∈ dates → d' ∈ dates → d' < d + 1000 * getSecondsUntilMidnight d).
Proof.
  intros Hdays Hbefore Habsent Hlen replies.
  assert (Hflags : allowed <$> replies
                   = replicate (Z.to_nat (ceiling k)) true ++ replicate extra false).
  { unfold replies. pose proof (ceiling_pos k) as Hpos.
    rewrite (run_each_flags k identityKey d0 dates s Hdays Hbefore);
      rewrite (counter_absent _ _ Habsent); [|lia].
    rewrite Z.sub_0_r, Hlen. f_equal; f_equal; lia. }
  split; [exact Hflags|].
  destruct (count_flags replies _ _ Hflags) as [Ha Hr].
  split; [exact Ha|]. split; [exact Hr|].
  by apply (written_keys_outlive_calls d0).
Qed.

Lemma sequential_calls_allow_exactly_ceiling_witness :
  let dates := replicate 11 1705314600000 in
  let replies := fst <$> run_each (checkAndIncrement Anonymous "abc" <$> dates) ∅ in
  allowed <$> replies = replicate 10 true ++ replicate 1 false
  ∧ length (filter (λ r, allowed r = true) replies) = 10%nat
  ∧ length (filter (λ r, allowed r = false) replies) = 1%nat
  ∧ (∀ d d', d ∈ dates → d' ∈ dates → d' < d + 1000 * getSecondsUntilMidnight d).
Proof.
  apply (sequential_calls_allow_exactly_ceiling Anonymous "abc" 1705314600000
           (replicate 11 1705314600000) 1 ∅).
  - repeat constructor.
  - repeat constructor.
  - apply lookup_empty.
  - reflexivity.
Defined.

(** C1 (counterexample).  The read and the increment-and-expire
    transaction are two round trips.  With the counter of ["abc"] at 9,
    two checks whose reads are both served before either transaction are
    both allowed and leave the counter at 11; and from an absent counter,
    eleven checks all read before any of them writes are all allowed. *)
Lemma concurrent_checks_exceed_ceiling :
  let now := 1705314600000 in
  let key := getAnonQuotaKey "abc" now in
  (let '(calls, s') :=
     interleave [0; 1; 0; 1]%nat
       [checkAndIncrement Anonymous "abc" now; checkAndIncrement Anonymous "abc" now]
       (<[key := Entry 9 (Some 48600)]> ∅) in
   returned <$> calls = [Some (Quota true 0); Some (Quota true 0)]
   ∧ redis_get s' key = Some 11)
  ∧ (let '(calls, s') :=
       interleave (seq 0 11 ++ seq 0 11)
         (replicate 11 (checkAndIncrement Anonymous "abc" now)) ∅ in
     returned <$> calls = replicate 11 (Some (Quota true 9))
     ∧ redis_get s' key = Some 11).
Proof. vm_compute. done. Qed.

(** The store after the [n]-th allowed anonymous call of the day. *)
Ltac allow_next Hday Hbefore c :=
  rewrite (run_allowed_at Anonymous _ _ _ _ c Hday Hbefore);
  [ cbn [snd]; rewrite ?insert_insert_eq
  | first [ by apply counter_absent | by rewrite counter_insert ]
  | done ].

(** Away from the last second of the day the anonymous quota counts as
    the specification says.  An anonymous identity whose daily counter is
    absent makes eleven quota checks on one UTC day, one after another,
    each at least one second before the next UTC midnight.  The first ten
    are allowed, with [remaining] counting down 9, 8, ..., 0; the [i]-th
    of them leaves the counter at [i] with the time to live set to the
    whole seconds between that call and the next UTC midnight, and the
    rest of the store as it was.  The eleventh is refused with
    [remaining] 0 and leaves the store as the tenth left it. *)
Lemma anonymous_quota_ten_then_refused
    (anonId : string) (d0 : Date) (dates : list Date) (s : gmap string entry) :
  length dates = 11%nat →
  Forall (sameDay d0) dates →
  Forall beforeLastSecond dates →
  s !! getAnonQuotaKey anonId d0 = None →
  let trace := run_each (checkAnonQuota anonId <$> dates) s in
  fst <$> trace
  = [Quota true 9; Quota true 8; Quota true 7; Quota true 6; Quota true 5;
     Quota true 4; Quota true 3; Quota true 2; Quota true 1; Quota true 0;
     Quota false 0]
  ∧ (∀ (i : nat) (d : Date),
       (i < 10)%nat → dates !! i = Some d →
       snd <$> trace !! i
       = Some (<[getAnonQuotaKey anonId d0 :=
                   Entry (Z.of_nat i + 1) (Some (getSecondsUntilMidnight d))]> s))
  ∧ snd <$> trace !! 10%nat = snd <$> trace !! 9%nat.
Proof.
  intros Hlen Hdays Hbefore Habsent.
  destruct dates as [|t1 [|t2 [|t3 [|t4 [|t5 [|t6 [|t7 [|t8 [|t9 [|t10 [|t11 [|]]]]]]]]]]]];
    try discriminate. clear Hlen.
  apply Forall_cons in Hbefore as [B1 Hbefore]. apply Forall_cons in Hbefore as [B2 Hbefore].
  apply Forall_cons in Hbefore as [B3 Hbefore]. apply Forall_cons in Hbefore as [B4 Hbefore].
  apply Forall_cons in Hbefore as [B5 Hbefore]. apply Forall_cons in Hbefore as [B6 Hbefore].
  apply Forall_cons in Hbefore as [B7 Hbefore]. apply Forall_cons in Hbefore as [B8 Hbefore].
  apply Forall_cons in Hbefore as [B9 Hbefore]. apply Forall_cons in Hbefore as [B10 _].
  apply Forall_cons in Hdays as [D1 Hdays]. apply Forall_cons in Hdays as [D2 Hdays].
  apply Forall_cons in Hdays as [D3 Hdays]. apply Forall_cons in Hdays as [D4 Hdays].
  apply Forall_cons in Hdays as [D5 Hdays]. apply Forall_cons in Hdays as [D6 Hdays].
  apply Forall_cons in Hdays as [D7 Hdays]. apply Forall_cons in Hdays as [D8 Hdays].
  apply Forall_cons in Hdays as [D9 Hdays]. apply Forall_cons in Hdays as [D10 Hdays].
  apply Forall_cons in Hdays as [D11 _].
  change (checkAnonQuota anonId) with (checkAndIncrement Anonymous anonId).
  change (getAnonQuotaKey anonId d0) with (quotaKey Anonymous anonId d0) in *.
  intros trace. subst trace. rewrite !fmap_cons, fmap_nil, !run_each_cons.
  allow_next D1 B1 0. allow_next D2 B2 1. allow_next D3 B3 2. allow_next D4 B4 3.
  allow_next D5 B5 4. allow_next D6 B6 5. allow_next D7 B7 6. allow_next D8 B8 7.
  allow_next D9 B9 8. allow_next D10 B10 9.
  rewrite (run_refused_at Anonymous anonId d0 _ _ D11)
    by (rewrite counter_insert; done).
  cbn [ceiling snd fst run_each fmap list_fmap].
  split; [reflexivity|]. split; [|reflexivity].
  intros i d Hi Hd.
  do 10 (destruct i as [|i]; [by injection Hd as <-|]). lia.
Qed.

Lemma anonymous_quota_ten_then_refused_witness :
  let dates := replicate 11 1705314600000 in
  let trace := run_each (checkAnonQuota "abc" <$> dates) ∅ in
  fst <$> trace
  = [Quota true 9; Quota true 8; Quota true 7; Quota true 6; Quota true 5;
     Quota true 4; Quota true 3; Quota true 2; Quota true 1; Quota true 0;
     Quota false 0]
  ∧ (∀ (i : nat) (d : Date),
       (i < 10)%nat → dates !! i = Some d →
       snd <$> trace !! i
       = Some (<[getAnonQuotaKey "abc" 1705314600000 :=
                   Entry (Z.of_nat i + 1) (Some (getSecondsUntilMidnight d))]> ∅))
  ∧ snd <$> trace !! 10%nat = snd <$> trace !! 9%nat.
Proof.
  apply (anonymous_quota_ten_then_refused "abc" 1705314600000
           (replicate 11 1705314600000) ∅).
  - reflexivity.
  - repeat constructor.
  - repeat constructor.
  - apply lookup_empty.
Defined.

(** C3 (the code at the failing input).  In the last second of a UTC day
    the whole seconds to midnight are zero, and [EXPIRE key 0] deletes the
    counter that the same transaction has just incremented.  Eleven
    anonymous checks made one after another at 23:59:59.500 UTC
    (1705363199500), from an absent counter, are therefore all allowed
    with [remaining] 9, none is refused, and the store never holds a
    counter.  And after nine checks made at 12:30:00 of that day, a tenth
    made at 23:59:59.500 is allowed with [remaining] 0 and deletes the
    counter that stood at 9, so that the eleventh, 100 ms later, is
    allowed with [remaining] 9. *)
Theorem anonymous_quota_last_second_never_refused :
  let noon := 1705321800000 in
  let now := 1705363199500 in
  sameDay noon now
  ∧ sameDay noon (now + 100)
  ∧ getSecondsUntilMidnight now = 0
  ∧ (let trace := run_each (checkAnonQuota "abc" <$> replicate 11 now) ∅ in
     fst <$> trace = replicate 11 (Quota true 9)
     ∧ snd <$> trace = replicate 11 ∅)
  ∧ (let trace :=
       run_each (checkAnonQuota "abc" <$> replicate 9 noon ++ [now; now + 100]) ∅ in
     fst <$> trace
     = [Quota true 9; Quota true 8; Quota true 7; Quota true 6; Quota true 5;
        Quota true 4; Quota true 3; Quota true 2; Quota true 1; Quota true 0;
        Quota true 9]
     ∧ (λ r, redis_get (snd r) (getAnonQuotaKey "abc" noon)) <$> trace
       = [Some 1; Some 2; Some 3; Some 4; Some 5; Some 6; Some 7; Some 8; Some 9;
          None; None]).
Proof. vm_compute. done. Qed.

(* ===================================================================== *)
(** ** The identity linker *)
(* ===================================================================== *)

Lemma redis_exists_true (s : gmap string entry) key :
  is_Some (s !! key) → redis_exists s key = true.
Proof. intros H. unfold redis_exists. by apply bool_decide_eq_true. Qed.

Lemma redis_exists_false (s : gmap string entry) key :
  s !! key = None → redis_exists s key = false.
Proof.
  intros H. unfold redis_exists. apply bool_decide_eq_false.
  rewrite H. by intros [? ?].
Qed.

(** A marker of the day makes the call a no-op. *)
Lemma linkAnonQuota_already_linked userId anonId date (s : gmap string entry) :
  is_Some (s !! getLinkAnonKey userId anonId date) →
  run (linkAnonQuota userId anonId date) s = (LinkResult false 0, s).
Proof.
  intros H. unfold linkAnonQuota. cbn [run]. by rewrite redis_exists_true.
Qed.


(** The transaction of a link call: with a positive time to live the
    user's counter is [n] higher and the marker is set; with none left,
    the user's counter is gone and no marker is set. *)
Lemma exec_link userKey linkKey n seconds (s : gmap string entry) :
  0 < seconds →
  exec_multi [INCRBY userKey n; EXPIRE userKey seconds; SETEX linkKey seconds 1] s
  = <[linkKey := Entry 1 (Some seconds)]>
      (<[userKey := Entry (counter s userKey + n) (Some seconds)]> s).
Proof.
  intros Hpos. unfold exec_multi, counter, redis_get. simpl. unfold incrby.
  destruct (Z.leb_spec seconds 0) as [Hle|_]; [lia|].
  destruct (s !! userKey) as [e|] eqn:He; simpl;
    rewrite lookup_insert_eq; simpl; by rewrite insert_insert_eq.
Qed.

Lemma exec_link_last userKey linkKey n seconds (s : gmap string entry) :
  seconds <= 0 →
  exec_multi [INCRBY userKey n; EXPIRE userKey seconds; SETEX linkKey seconds 1] s
  = delete userKey s.
Proof.
  intros Hle. unfold exec_multi. simpl. unfold incrby.
  destruct (Z.leb_spec seconds 0) as [_|Hpos]; [|lia].
  destruct (s !! userKey) as [e|] eqn:He; simpl;
    rewrite lookup_insert_eq; by rewrite delete_insert_eq.
Qed.


(** The fold itself: the user's counter grows by the anonymous count and
    the marker is set, both with the time left in the day. *)
Lemma linkAnonQuota_links userId anonId date (s : gmap string entry) :
  beforeLastSecond date →
  s !! getLinkAnonKey userId anonId date = None →
  counter s (getAnonQuotaKey anonId date) ≠ 0 →
  run (linkAnonQuota userId anonId date) s
  = (LinkResult true (counter s (getAnonQuotaKey anonId date)),
     <[getLinkAnonKey userId anonId date :=
         Entry 1 (Some (getSecondsUntilMidnight date))]>
       (<[getUserQuotaKey userId date :=
            Entry (counter s (getUserQuotaKey userId date)
                   + counter s (getAnonQuotaKey anonId date))
                  (Some (getSecondsUntilMidnight date))]> s)).
Proof.
  intros Hb Hfree Hcount. unfold linkAnonQuota. cbn [run].
  rewrite (redis_exists_false _ _ Hfree). cbn [run].
  fold (counter s (getAnonQuotaKey anonId date)).
  destruct (Z.eqb_spec (counter s (getAnonQuotaKey anonId date)) 0) as [|_]; [done|].
  cbn [run]. f_equal. by apply exec_link.
Qed.

(** Away from the last second of the day the link is made once.  The
    calls are made at least one second before the next UTC midnight.
    With no marker yet for (user, anonymous id, day) and a positive
    anonymous count [c], the first link call returns
    [{linked: true, count: c}], adds [c] to the user's counter, leaves the
    anonymous counter as it was and sets the marker; every further link
    call on that day, issued after it, returns [{linked: false, count: 0}]
    and leaves the store as the first call left it, so the user's counter
    holds the anonymous count exactly once. *)
Lemma linkAnonQuota_once_per_day
    (userId anonId : string) (d0 date : Date) (later : list Date)
    (s : gmap string entry) (c : Z) :
  sameDay d0 date →
  beforeLastSecond date →
  Forall (sameDay d0) later →
  Forall beforeLastSecond later →
  s !! getLinkAnonKey userId anonId d0 = None →
  redis_get s (getAnonQuotaKey anonId d0) = Some c →
  0 < c →
  let first := run (linkAnonQuota userId anonId date) s in
  fst first = LinkResult true c
  ∧ counter (snd first) (getUserQuotaKey userId d0)
    = counter s (getUserQuotaKey userId d0) + c
  ∧ redis_get (snd first) (getAnonQuotaKey anonId d0) = Some c
  ∧ is_Some (snd first !! getLinkAnonKey userId anonId d0)
  ∧ Forall (λ r, r = (LinkResult false 0, snd first))
      (run_each (linkAnonQuota userId anonId <$> later) (snd first)).
Proof.
  intros Hd Hb Hlater _ Hfree Hanon Hc first.
  assert (Hkeys : getLinkAnonKey userId anonId date = getLinkAnonKey userId anonId d0
                  ∧ getAnonQuotaKey anonId date = getAnonQuotaKey anonId d0
                  ∧ getUserQuotaKey userId date = getUserQuotaKey userId d0).
  { split; [by apply getLinkAnonKey_sameDay|].
    split; [apply (quotaKey_sameDay Anonymous _ _ _ Hd)
           |apply (quotaKey_sameDay User _ _ _ Hd)]. }
  destruct Hkeys as (Hlk & Hak & Huk).
  assert (Hcount : counter s (getAnonQuotaKey anonId d0) = c).
  { unfold counter. by rewrite Hanon. }
  subst first. rewrite linkAnonQuota_links; rewrite ?Hlk, ?Hak, ?Huk, ?Hcount;
    [|done|done|lia].
  cbn [fst snd].
  set (s1 := <[getLinkAnonKey userId anonId d0 := _]> _).
  assert (Hmarker : is_Some (s1 !! getLinkAnonKey userId anonId d0)).
  { subst s1. rewrite lookup_insert_eq. by eexists. }
  split; [done|]. split.
  { subst s1. rewrite counter_insert_ne by apply linkKey_ne_userKey.
    by rewrite counter_insert. }
  split.
  { subst s1. unfold redis_get.
    rewrite lookup_insert_ne by apply linkKey_ne_anonKey.
    rewrite lookup_insert_ne by (apply not_eq_sym, anonKey_ne_userKey).
    exact Hanon. }
  split; [exact Hmarker|].
  clearbody s1. clear -Hlater Hmarker.
  induction later as [|d later IH]; [constructor|].
  apply Forall_cons in Hlater as [Hd Hlater].
  rewrite fmap_cons, run_each_cons.
  rewrite linkAnonQuota_already_linked
    by (by rewrite (getLinkAnonKey_sameDay _ _ _ _ Hd)).
  constructor; [done|]. cbn [snd]. by apply IH.
Qed.

Lemma linkAnonQuota_once_per_day_witness :
  let now := 1705314600000 in
  let s : gmap string entry := <[getAnonQuotaKey "abc123" now := Entry 2 (Some 48600)]> ∅ in
  let first := run (linkAnonQuota "user123" "abc123" now) s in
  fst first = LinkResult true 2
  ∧ counter (snd first) (getUserQuotaKey "user123" now)
    = counter s (getUserQuotaKey "user123" now) + 2
  ∧ redis_get (snd first) (getAnonQuotaKey "abc123" now) = Some 2
  ∧ is_Some (snd first !! getLinkAnonKey "user123" "abc123" now)
  ∧ Forall (λ r, r = (LinkResult false 0, snd first))
      (run_each (linkAnonQuota "user123" "abc123" <$> [now + 1000; now + 2000])
                (snd first)).
Proof.
  apply (linkAnonQuota_once_per_day "user123" "abc123" 1705314600000 1705314600000
           [1705314600000 + 1000; 1705314600000 + 2000]
           (<[getAnonQuotaKey "abc123" 1705314600000 := Entry 2 (Some 48600)]> ∅) 2).
  - reflexivity.
  - by vm_compute.
  - repeat constructor.
  - repeat constructor.
  - vm_compute. reflexivity.
  - vm_compute. reflexivity.
  - lia.
Defined.

(** C4 (the code at the failing input).  In the last second of a UTC day
    the time to live is zero: in the transaction of the link call,
    [EXPIRE userKey 0] deletes the user's counter that [INCRBY] has just
    raised, and [SETEX linkKey 0 '1'] is refused, so no marker is set.
    With the anonymous counter of ["abc123"] at 2 and the counter of
    ["user123"] at 5, a link call at 23:59:59.500 UTC (1705363199500)
    returns [{linked: true, count: 2}] and leaves neither a marker nor a
    user counter; a second call 100 ms later returns
    [{linked: true, count: 2}] again. *)
Theorem linkAnonQuota_last_second_links_again :
  let now := 1705363199500 in
  let s : gmap string entry :=
    <[getUserQuotaKey "user123" now := Entry 5 (Some 3600)]>
      (<[getAnonQuotaKey "abc123" now := Entry 2 (Some 3600)]> ∅) in
  let first := run (linkAnonQuota "user123" "abc123" now) s in
  let second := run (linkAnonQuota "user123" "abc123" (now + 100)) (snd first) in
  sameDay now (now + 100)
  ∧ getSecondsUntilMidnight now = 0
  ∧ fst first = LinkResult true 2
  ∧ snd first !! getLinkAnonKey "user123" "abc123" now = None
  ∧ redis_get (snd first) (getUserQuotaKey "user123" now) = None
  ∧ redis_get (snd first) (getAnonQuotaKey "abc123" now) = Some 2
  ∧ fst second = LinkResult true 2
  ∧ redis_get (snd second) (getUserQuotaKey "user123" now) = None.
Proof. vm_compute. done. Qed.



(* ===================================================================== *)
(** ** Session ownership *)
(* ===================================================================== *)

(** The middleware always attaches an anonymous id. *)
Lemma anonIdMiddleware_attaches uuid req :
  is_Some (Request.anonId (anonIdMiddleware uuid req)).
Proof.
  unfold anonIdMiddleware. destruct (truthy (Request.cookie req)) eqn:Hc; simpl.
  - destruct (Request.cookie req); [by eexists|discriminate].
  - by eexists.
Qed.

Lemma anonIdMiddleware_userId uuid req :
  Request.userId (anonIdMiddleware uuid req) = Request.userId req.
Proof. unfold anonIdMiddleware. by destruct (truthy _). Qed.

(** Both creation paths copy the two owner fields of the request. *)
Lemma postSession_owner_fields req title newId now db :
  ∃ session,
    fst (postSession req title newId now db) = Json 201 session
    ∧ Session._id session = newId
    ∧ Session.userId session = Request.userId req
    ∧ Session.anonId session = Request.anonId req
    ∧ Session.synopsis session = Session.Synopsis None None None None None (Some [])
    ∧ Session.synopsisVersion session = 0.
Proof. eexists. by repeat split. Qed.

(** A session created by a caller without a user has the anonymous id as
    its one owner. *)
Lemma anonymous_session_one_owner uuid req title newId now db session :
  Request.userId req = None →
  fst (postSession (anonIdMiddleware uuid req) title newId now db) = Json 201 session →
  Session.oneOwner session = true.
Proof.
  intros Hu [= <-]. unfold Session.oneOwner. simpl.
  rewrite anonIdMiddleware_userId, Hu.
  rewrite (bool_decide_eq_true_2 _ (anonIdMiddleware_attaches uuid req)).
  by rewrite bool_decide_eq_false_2 by (by intros [? ?]).
Qed.

(** A session created by a signed-in caller carries both owner fields. *)
Lemma authenticated_session_two_owners uuid req title newId now db session userId :
  Request.userId req = Some userId →
  fst (postSession (anonIdMiddleware uuid req) title newId now db) = Json 201 session →
  Session.userId session = Some userId
  ∧ is_Some (Session.anonId session)
  ∧ Session.oneOwner session = false.
Proof.
  intros Hu [= <-]. unfold Session.oneOwner. simpl.
  rewrite anonIdMiddleware_userId, Hu.
  pose proof (anonIdMiddleware_attaches uuid req) as Ha.
  rewrite (bool_decide_eq_true_2 _ Ha).
  by rewrite bool_decide_eq_true_2 by (by eexists).
Qed.

(** C2 (the code at the failing input).  A signed-in user ["user123"]
    whose browser still carries the anonymous cookie ["abc123"] creates a
    session, explicitly and by auto-creation of an enhancement request:
    both sessions are stored with the user id and the anonymous id set. *)
Theorem signed_in_creation_sets_both_owner_fields :
  let now := 1705314600000 in
  let req := anonIdMiddleware "0b8f6f1e" (Request.Req (Some "abc123") (Some "user123") None) in
  let db := Collections [] [] in
  (∃ session,
      postSession req (Some "My chat") "sess_456" now db
      = (Json 201 session, Collections [session] [])
      ∧ Session.userId session = Some "user123"
      ∧ Session.anonId session = Some "abc123"
      ∧ Session.oneOwner session = false)
  ∧ (∃ session,
      enhanceSession req None true "sess_789" now db
      = (Some "sess_789", Collections [session] [])
      ∧ Session.userId session = Some "user123"
      ∧ Session.anonId session = Some "abc123"
      ∧ Session.oneOwner session = false).
Proof. split; eexists; repeat split; reflexivity. Qed.

(* ===================================================================== *)
(** ** Session lookup *)
(* ===================================================================== *)

Lemma findOne_Some q docs doc :
  Session.findOne q docs = Some doc → doc ∈ docs ∧ Session.matches q doc = true.
Proof.
  intros H. apply find_some in H as [Hin Hm]. split; [|done].
  by apply list_elem_of_In.
Qed.

Lemma findOne_None q docs :
  (∀ doc, doc ∈ docs → Session.matches q doc = false) → Session.findOne q docs = None.
Proof.
  unfold Session.findOne. induction docs as [|d docs IH]; intros H; [done|].
  simpl. rewrite (H d) by apply list_elem_of_here.
  apply IH. intros doc Hin. apply H. by apply list_elem_of_further.
Qed.

Lemma matches_id q doc :
  Session.matches q doc = true → Session._id doc = Session.q_id q.
Proof.
  unfold Session.matches. intros H.
  apply andb_prop in H as [H _]. apply andb_prop in H as [H _].
  by apply String.eqb_eq.
Qed.

Lemma keyMatches_Some v field :
  Session.keyMatches (Some v) field = true ↔ field = Some v.
Proof. unfold Session.keyMatches. apply bool_decide_eq_true. Qed.

(** X22.  The lookup filters by the owner field that matches the caller: a
    session is returned to a signed-in caller only if its user id is the
    caller's, and to any other caller only if its anonymous id is the
    caller's. *)
Lemma getSession_filters_by_owner req sessionId db session status :
  getSession req sessionId db = Json status session →
  Session._id session = sessionId
  ∧ (if truthy (Request.userId req)
     then Session.userId session = Request.userId req
     else Session.anonId session = Request.anonId req).
Proof.
  unfold getSession. destruct (truthy (Request.userId req)) eqn:Hu.
  - destruct (Session.findOne _ _) as [doc|] eqn:Hf; [|discriminate].
    intros [= _ <-]. apply findOne_Some in Hf as [_ Hm].
    split; [apply (matches_id _ _ Hm)|].
    unfold Session.matches in Hm. simpl in Hm.
    destruct (Request.userId req) as [u|]; [|discriminate].
    apply andb_prop in Hm as [Hm _]. apply andb_prop in Hm as [_ Hm].
    by apply keyMatches_Some.
  - destruct (truthy (Request.anonId req)) eqn:Ha; [|discriminate].
    destruct (Session.findOne _ _) as [doc|] eqn:Hf; [|discriminate].
    intros [= _ <-]. apply findOne_Some in Hf as [_ Hm].
    split; [apply (matches_id _ _ Hm)|].
    unfold Session.matches in Hm. simpl in Hm.
    destruct (Request.anonId req) as [a|]; [|discriminate].
    apply andb_prop in Hm as [_ Hm]. by apply keyMatches_Some.
Qed.

(** X23.  A session created by an anonymous caller under the id [A] is
    found neither under another anonymous id nor by a signed-in caller. *)
Lemma anonymous_session_hidden_from_others cookie A title newId now db req :
  (∀ doc, doc ∈ sessions db → Session._id doc ≠ newId) →
  let db' := snd (postSession (Request.Req cookie None (Some A)) title newId now db) in
  (truthy (Request.userId req) = true ∨ Request.anonId req ≠ Some A) →
  getSession req newId db' = Error 404 "Session not found".
Proof.
  intros Hfresh db' Hother. subst db'. unfold getSession, postSession. cbn [snd sessions].
  assert (Hnone : ∀ q, Session.q_id q = newId →
            (is_Some (Session.q_userId q)
             ∨ ∃ B, Session.q_anonId q = Some B ∧ B ≠ A) →
            Session.findOne q
              (sessions db ++ [Session.createSession None title (Some A) newId now]) = None).
  { intros q Hq Hown. apply findOne_None. intros doc Hin.
    apply elem_of_app in Hin as [Hin|Hin].
    - unfold Session.matches. rewrite Hq.
      destruct (String.eqb_spec (Session._id doc) newId) as [Heq|]; [|done].
      by destruct (Hfresh doc Hin).
    - apply list_elem_of_singleton in Hin as ->. unfold Session.matches. simpl.
      destruct Hown as [[u Hu]|[B [HB Hne]]].
      + rewrite Hu. simpl. by rewrite andb_false_r.
      + rewrite HB. simpl. rewrite bool_decide_eq_false_2 by congruence.
        by rewrite andb_false_r. }
  destruct (truthy (Request.userId req)) eqn:Hu.
  - rewrite Hnone; [done|done|]. left.
    destruct (Request.userId req); [by eexists|discriminate].
  - destruct Hother as [|Hne]; [discriminate|].
    destruct (truthy (Request.anonId req)) eqn:Ha; [|done].
    destruct (Request.anonId req) as [B|] eqn:HB; [|discriminate].
    rewrite Hnone; [done|done|]. right. exists B. split; [done|congruence].
Qed.

(** C6 (the code at the failing input).  The signed-in user ["user123"],
    whose browser carries the anonymous cookie ["abc123"], creates the
    session ["sess_456"]; a later request with that cookie and no access
    token, so presenting only the anonymous id, is given the session. *)
Theorem user_session_returned_to_anonymous_caller :
  let now := 1705314600000 in
  let creator := anonIdMiddleware "0b8f6f1e" (Request.Req (Some "abc123") (Some "user123") None) in
  let db := snd (postSession creator (Some "My chat") "sess_456" now (Collections [] [])) in
  let caller := anonIdMiddleware "5c1d2a90" (Request.Req (Some "abc123") None None) in
  Request.userId caller = None
  ∧ ∃ session,
      getSession caller "sess_456" db = Json 200 session
      ∧ Session.userId session = Some "user123".
Proof. split; [reflexivity|]. eexists. split; reflexivity. Qed.

(* ===================================================================== *)
(** ** Merging a session into a user *)
(* ===================================================================== *)

Lemma findOne_save q doc docs :
  (∃ d, d ∈ docs ∧ Session._id d = Session._id doc) →
  Session.matches q doc = true →
  Session.findOne q (Session.save doc docs) = Some doc.
Proof.
  intros Hex Hm. pose proof (matches_id _ _ Hm) as Hid.
  unfold Session.findOne, Session.save.
  induction docs as [|d docs IH].
  - destruct Hex as [d [Hin _]]. by apply elem_of_nil in Hin.
  - rewrite fmap_cons. simpl.
    destruct (String.eqb_spec (Session._id d) (Session._id doc)) as [Heq|Hne].
    + by rewrite Hm.
    + assert (Session.matches q d = false) as ->.
      { unfold Session.matches.
        destruct (String.eqb_spec (Session._id d) (Session.q_id q)); [congruence|done]. }
      apply IH. destruct Hex as [d' [Hin Hd']].
      apply elem_of_cons in Hin as [->|Hin]; [done|by exists d'].
Qed.

Lemma save_replaces doc docs d :
  d ∈ Session.save doc docs → Session._id d = Session._id doc → d = doc.
Proof.
  unfold Session.save. intros Hin Hid.
  apply list_elem_of_fmap in Hin as [d0 [-> _]].
  destruct (String.eqb_spec (Session._id d0) (Session._id doc)); [done|congruence].
Qed.

Lemma updateMany_moves session user docs p :
  p ∈ docs → Prompt.sessionId p = Some session →
  Prompt.setUser user p ∈ Prompt.findByUser user (Prompt.updateMany session user docs).
Proof.
  intros Hin Hs. unfold Prompt.findByUser, Prompt.updateMany.
  apply list_elem_of_filter. split; [done|].
  apply list_elem_of_fmap. exists p. split; [|done].
  by rewrite bool_decide_eq_true_2.
Qed.

Lemma updateMany_owner session user docs p' :
  p' ∈ Prompt.updateMany session user docs →
  Prompt.sessionId p' = Some session → Prompt.userId p' = Some user.
Proof.
  unfold Prompt.updateMany. intros Hin Hs.
  apply list_elem_of_fmap in Hin as [p [-> _]].
  destruct (bool_decide (Prompt.sessionId p = Some session)) eqn:Hb; [done|].
  by apply bool_decide_eq_false in Hb.
Qed.

(** C7.  When the merge of session [sessionId] by the signed-in user
    [userId] succeeds, the stored session has [userId] as its user id and
    no anonymous id: it is found under the user and no longer under the
    anonymous id.  Every prompt of the session is, with its user id set to
    [userId], among the prompts found by that user id, and no prompt of the
    session is left with another owner. *)
Theorem mergeSession_transfers_session_and_prompts
    (req : Request.t) (sessionId userId : string) (db db' : DB) (body : string) :
  Request.userId req = Some userId →
  mergeSession req sessionId db = (Json 200 body, db') →
  (∃ session',
      Session.findOne (Session.Filter sessionId (Some userId) None) (sessions db')
      = Some session'
      ∧ Session.userId session' = Some userId
      ∧ Session.anonId session' = None)
  ∧ Session.findOne (Session.Filter sessionId None (Request.anonId req)) (sessions db')
    = None
  ∧ (∀ p, p ∈ prompts db → Prompt.sessionId p = Some sessionId →
          Prompt.setUser userId p ∈ Prompt.findByUser userId (prompts db'))
  ∧ (∀ p', p' ∈ prompts db' → Prompt.sessionId p' = Some sessionId →
           Prompt.userId p' = Some userId).
Proof.
  intros Hu. unfold mergeSession. rewrite Hu.
  destruct (truthy (Request.anonId req)) eqn:Ha; simpl; [|discriminate].
  destruct (Session.findOne _ (sessions db)) as [session|] eqn:Hf; [|discriminate].
  intros [= _ <-]. cbn [sessions prompts].
  apply findOne_Some in Hf as [Hin Hm]. pose proof (matches_id _ _ Hm) as Hid.
  simpl in Hid.
  set (session' := Session.Doc _ _ _ _ _ _ _).
  destruct (Request.anonId req) as [anonId|] eqn:Hanon; [|discriminate].
  split; [|split; [|split]].
  - exists session'. split; [|done].
    apply findOne_save; [by exists session|].
    unfold Session.matches. simpl. rewrite Hid, String.eqb_refl.
    by rewrite bool_decide_eq_true_2.
  - apply findOne_None. intros d Hd.
    unfold Session.matches. rewrite andb_comm. cbn [Session.q_anonId Session.keyMatches].
    destruct (String.eqb_spec (Session._id d) (Session._id session')) as [Heq|Hne].
    + by rewrite (save_replaces _ _ _ Hd Heq).
    + assert ((Session._id d =? Session.q_id (Session.Filter sessionId None (Some anonId)))%string
              = false) as ->.
      { apply String.eqb_neq. simpl in *. congruence. }
      simpl. by rewrite andb_false_r.
  - intros p. apply updateMany_moves.
  - intros p'. apply updateMany_owner.
Qed.

Lemma mergeSession_transfers_session_and_prompts_witness :
  let now := 1705314600000 in
  let session := Session.createSession None None (Some "abc123") "sess_456" now in
  let turn i :=
    Prompt.Doc i None (Some "sess_456") "Write an email" "Write a formal email"
      false (Prompt.ContextUsed 0 0) "gpt-4o-mini" 1200 (Prompt.Tokens 25 45) None in
  let db := Collections [session] [turn "p1"; turn "p2"] in
  let req := Request.Req (Some "abc123") (Some "user123") (Some "abc123") in
  let db' := snd (mergeSession req "sess_456" db) in
  (∃ session',
      Session.findOne (Session.Filter "sess_456" (Some "user123") None) (sessions db')
      = Some session'
      ∧ Session.userId session' = Some "user123"
      ∧ Session.anonId session' = None)
  ∧ Session.findOne (Session.Filter "sess_456" None (Request.anonId req)) (sessions db')
    = None
  ∧ (∀ p, p ∈ prompts db → Prompt.sessionId p = Some "sess_456" →
          Prompt.setUser "user123" p ∈ Prompt.findByUser "user123" (prompts db'))
  ∧ (∀ p', p' ∈ prompts db' → Prompt.sessionId p' = Some "sess_456" →
           Prompt.userId p' = Some "user123").
Proof.
  intros now session turn db req db'.
  apply (mergeSession_transfers_session_and_prompts req "sess_456" "user123" db db'
           "sess_456").
  - reflexivity.
  - reflexivity.
Defined.

(* ===================================================================== *)
(** ** Synopsis updates *)
(* ===================================================================== *)

Lemma spreadKey_merged {A : Type} (old new : option A) :
  Session.mergedKey old new (Session.spreadKey old new).
Proof. split; [by intros ->|by intros v ->]. Qed.

(** C8.  [updateSynopsis] merges field by field: for every session and
    every partial synopsis, each of the six keys keeps its value when the
    update omits it and takes the new value when the update supplies one;
    [synopsisVersion] grows by exactly 1, and the owner fields, the id and
    the title are untouched. *)
Theorem updateSynopsis_merges_fieldwise
    (this : Session.ISession) (newSynopsis : Session.ISynopsis) (now : Date) :
  let old := Session.synopsis this in
  let updated := Session.updateSynopsis this newSynopsis now in
  Session.synopsisVersion updated = Session.synopsisVersion this + 1
  ∧ Session.mergedKey (Session.goal old) (Session.goal newSynopsis)
      (Session.goal (Session.synopsis updated))
  ∧ Session.mergedKey (Session.tone old) (Session.tone newSynopsis)
      (Session.tone (Session.synopsis updated))
  ∧ Session.mergedKey (Session.constraints old) (Session.constraints newSynopsis)
      (Session.constraints (Session.synopsis updated))
  ∧ Session.mergedKey (Session.audience old) (Session.audience newSynopsis)
      (Session.audience (Session.synopsis updated))
  ∧ Session.mergedKey (Session.style old) (Session.style newSynopsis)
      (Session.style (Session.synopsis updated))
  ∧ Session.mergedKey (Session.todos old) (Session.todos newSynopsis)
      (Session.todos (Session.synopsis updated))
  ∧ Session.lastMessageAt updated = now
  ∧ Session._id updated = Session._id this
  ∧ Session.userId updated = Session.userId this
  ∧ Session.anonId updated = Session.anonId this
  ∧ Session.title updated = Session.title this.
Proof.
  intros old updated. subst old updated. simpl.
  repeat split; try apply spreadKey_merged; by intros ->.
Qed.

(** The scenario of C8: only [goal] is updated on a synopsis whose [tone]
    is set. *)
Lemma updateSynopsis_merges_fieldwise_witness :
  let this :=
    Session.Doc "sess_456" None (Some "abc123") None
      (Session.Synopsis (Some "Write an email") (Some "formal") None None None None)
      3 1705314600000 in
  let updated :=
    Session.updateSynopsis this
      (Session.Synopsis (Some "Write a cover letter") None None None None None)
      1705314605000 in
  Session.goal (Session.synopsis updated) = Some "Write a cover letter"
  ∧ Session.tone (Session.synopsis updated) = Some "formal"
  ∧ Session.synopsisVersion updated = 4.
Proof.
  intros this updated.
  destruct (updateSynopsis_merges_fieldwise this
              (Session.Synopsis (Some "Write a cover letter") None None None None None)
              1705314605000) as (Hv & [_ Hgoal] & [Htone _] & _).
  split; [by apply Hgoal|]. split; [by apply Htone|]. exact Hv.
Defined.

(* ===================================================================== *)
(** ** The context builder *)
(* ===================================================================== *)

Lemma length_append (a b : string) :
  String.length (a +:+ b) = (String.length a + String.length b)%nat.
Proof. induction a as [|c a IH]; simpl; [done|by rewrite IH]. Qed.

Lemma length_substring_0 (n : nat) :
  ∀ s : string, (n <= String.length s)%nat → String.length (String.substring 0 n s) = n.
Proof.
  induction n as [|n IH]; intros s Hn.
  - by destruct s.
  - destruct s as [|c s]; simpl in *; [lia|]. rewrite IH; [done|lia].
Qed.

Lemma substring_0_prefix (n : nat) (s : string) :
  (n <= String.length s)%nat → String.prefix (String.substring 0 n s) s = true.
Proof.
  intros Hn. apply String.prefix_correct. by rewrite length_substring_0.
Qed.

Lemma length_sliceLast {A : Type} (n : nat) (l : list A) :
  length (sliceLast n l) = (length l `min` n)%nat.
Proof. unfold sliceLast. rewrite length_drop. lia. Qed.

Lemma sliceLast_suffix {A : Type} (n : nat) (l : list A) :
  l = take (length l - n) l ++ sliceLast n l.
Proof. unfold sliceLast. by rewrite take_drop. Qed.

(** C9.  When the assembled context is longer than 2000 characters,
    [buildContext] returns its first 2000 characters, wherever that cut
    falls, followed by the marker ["..."]: 2003 characters in all.
    [contextUsed.lastTurns] is the number of recent messages rendered
    before the cut was made: the length of the supplied list capped at 6,
    the messages being its trailing ones. *)
Theorem buildContext_truncates_to_budget
    (synopsis : Session.ISynopsis) (lastMessages : list message) :
  (maxContextLength < String.length (assembled synopsis lastMessages))%nat →
  let result := buildContext synopsis lastMessages in
  context result
  = String.substring 0 maxContextLength (assembled synopsis lastMessages) +:+ "..."
  ∧ String.prefix (String.substring 0 maxContextLength (assembled synopsis lastMessages))
      (assembled synopsis lastMessages) = true
  ∧ String.length (context result) = (maxContextLength + 3)%nat
  ∧ Prompt.lastTurns (contextUsed result) = (length lastMessages `min` 6)%nat
  ∧ Prompt.lastTurns (contextUsed result) = length (sliceLast 6 lastMessages)
  ∧ lastMessages
    = take (length lastMessages - 6) lastMessages ++ sliceLast 6 lastMessages.
Proof.
  intros Hlong result. subst result. unfold buildContext. cbn [context contextUsed Prompt.lastTurns].
  apply Nat.ltb_lt in Hlong as Hb. rewrite Hb.
  split; [done|]. split; [apply substring_0_prefix; lia|].
  split; [rewrite length_append, length_substring_0 by lia; done|].
  split; [apply length_sliceLast|]. split; [done|apply sliceLast_suffix].
Qed.

Lemma buildContext_truncates_to_budget_witness :
  let lastMessages := [Message user (String.concat "" (replicate 2000 "a"))] in
  let result := buildContext Session.empty lastMessages in
  String.length (context result) = 2003%nat
  ∧ Prompt.lastTurns (contextUsed result) = 1%nat.
Proof.
  intros lastMessages result.
  destruct (buildContext_truncates_to_budget Session.empty lastMessages)
    as (_ & _ & Hlen & Hturns & _).
  - apply Nat.ltb_lt. vm_compute. reflexivity.
  - split; [exact Hlen|exact Hturns].
Defined.

(* ===================================================================== *)
(** ** The follow-up classifier *)
(* ===================================================================== *)

Lemma score_from (markers : list marker) (prompt : string) :
  ∀ n : nat,
    foldl (λ followUpScore m, if test m prompt then S followUpScore else followUpScore)
          n markers
    = (n + length (filter (λ m, test m prompt = true) markers))%nat.
Proof.
  induction markers as [|m markers IH]; intros n; simpl; [lia|].
  rewrite IH, filter_cons. destruct (test m prompt); simpl; lia.
Qed.

(** The score counts the categories whose pattern matches. *)
Lemma score_matched (markers : list marker) (prompt : string) :
  score markers prompt = length (filter (λ m, test m prompt = true) markers).
Proof. unfold score. by rewrite score_from. Qed.

(** C10.  ["What about a shorter version?"] is a follow-up: of the six
    pattern categories, the clarifying-question one and the question-mark
    one match.  ["Write a poem about the sea"] is not: no category
    matches.  For every prompt, [isFollowUp] holds exactly when some
    category matches, and [confidence] is the number of matching
    categories over the number of categories, six, a fraction between 0
    and 1. *)
Theorem classifyInput_follow_up_and_confidence :
  (isFollowUp (classifyInput "What about a shorter version?") = true
   ∧ (λ m, test m "What about a shorter version?") <$> followUpMarkers
     = [false; true; false; false; false; true])
  ∧ (isFollowUp (classifyInput "Write a poem about the sea") = false
     ∧ (λ m, test m "Write a poem about the sea") <$> followUpMarkers
       = [false; false; false; false; false; false])
  ∧ ∀ prompt : string,
      let matched := length (filter (λ m, test m prompt = true) followUpMarkers) in
      (isFollowUp (classifyInput prompt) = true
       ↔ ∃ m, m ∈ followUpMarkers ∧ test m prompt = true)
      ∧ (confidence (classifyInput prompt)
         == Z.of_nat matched # Pos.of_nat (length followUpMarkers))%Q
      ∧ (0 <= confidence (classifyInput prompt))%Q
      ∧ (confidence (classifyInput prompt) <= 1)%Q.
Proof.
  split; [by vm_compute|]. split; [by vm_compute|].
  intros prompt matched.
  assert (Hscore : score followUpMarkers prompt = matched) by apply score_matched.
  assert (Hle : (matched <= 6)%nat).
  { subst matched. etrans; [apply length_filter|]. done. }
  split.
  - unfold classifyInput. cbn [isFollowUp]. rewrite Hscore. rewrite Nat.leb_le.
    subst matched. split.
    + intros Hpos.
      destruct (filter (λ m, test m prompt = true) followUpMarkers) as [|m l] eqn:Hf;
        [simpl in Hpos; lia|].
      assert (Hmem : m ∈ filter (λ m, test m prompt = true) followUpMarkers)
        by (rewrite Hf; apply list_elem_of_here).
      apply list_elem_of_filter in Hmem as [Hm Hin]. by exists m.
    + intros [m [Hin Hm]].
      assert (Hmem : m ∈ filter (λ m, test m prompt = true) followUpMarkers)
        by by apply list_elem_of_filter.
      destruct (filter _ _); [by apply elem_of_nil in Hmem|simpl; lia].
  - assert (Hc : (inject_Z (Z.of_nat matched) / inject_Z (Z.of_nat (length followUpMarkers))
                  == Z.of_nat matched # 6)%Q).
    { unfold Qeq. simpl. lia. }
    assert (Hc1 : (Z.of_nat matched # 6 <= 1)%Q) by (unfold Qle; simpl; lia).
    assert (Hconf : (confidence (classifyInput prompt) == Z.of_nat matched # 6)%Q).
    { unfold classifyInput. cbn [confidence]. rewrite Hscore.
      rewrite Q.min_l; [exact Hc|]. rewrite Hc. exact Hc1. }
    split; [exact Hconf|]. rewrite Hconf. split; [|exact Hc1].
    unfold Qle. simpl. lia.
Qed.

(* ===================================================================== *)
(** ** Further properties: time to live and key names *)
(* ===================================================================== *)

(** X1.  The time to live is between 0 and 86400 seconds and, counted
    from the call, ends within the last second before the next UTC
    midnight or at it.  Both ends are reached: it is 0 exactly in the last
    second of the day, and 86400 exactly at a midnight. *)
Theorem getSecondsUntilMidnight_bounds (date : Date) :
  let midnight := (utcDay date + 1) * msPerDay in
  0 <= getSecondsUntilMidnight date <= 86400
  ∧ midnight - 1000 < date + 1000 * getSecondsUntilMidnight date <= midnight
  ∧ (getSecondsUntilMidnight date = 0 ↔ midnight - date < 1000)
  ∧ (getSecondsUntilMidnight date = 86400 ↔ date mod msPerDay = 0).
Proof.
  intros midnight. subst midnight.
  unfold getSecondsUntilMidnight, utcDay, msPerDay.
  pose proof (Z.div_mod date 86400000 ltac:(lia)) as Hd.
  pose proof (Z.mod_pos_bound date 86400000 ltac:(lia)) as Hm.
  set (q := date / 86400000) in *. set (r := date mod 86400000) in *.
  pose proof (Z.div_mod ((q + 1) * 86400000 - date) 1000 ltac:(lia)) as Hd'.
  pose proof (Z.mod_pos_bound ((q + 1) * 86400000 - date) 1000 ltac:(lia)) as Hm'.
  set (t := ((q + 1) * 86400000 - date) / 1000) in *.
  repeat split; lia.
Qed.

Lemma append_cancel_r (a a' s : string) : a +:+ s = a' +:+ s → a = a'.
Proof.
  revert a'. induction a as [|c a IH]; intros [|c' a'] H.
  - done.
  - apply (f_equal String.length) in H. rewrite !length_append in H. simpl in H. lia.
  - apply (f_equal String.length) in H. rewrite !length_append in H. simpl in H. lia.
  - change (String c (a +:+ s) = String c' (a' +:+ s)) in H.
    injection H as -> H. f_equal. by apply IH.
Qed.

Lemma append_cancel_l (p a a' : string) : p +:+ a = p +:+ a' → a = a'.
Proof.
  induction p as [|c p IH]; [done|]. intros H.
  change (String c (p +:+ a) = String c (p +:+ a')) in H.
  injection H as H. by apply IH.
Qed.

(** X2.  The counters of the anonymous ids, of the users and of the IP
    addresses and the link markers live under names that never coincide,
    whatever the identifiers and the dates; and on one date two
    identifiers of a kind have the same counter name only if they are
    equal. *)
Theorem quota_key_names_separate :
  (∀ a u i u' a' d1 d2 d3 d4,
      getAnonQuotaKey a d1 ≠ getUserQuotaKey u d2
      ∧ getAnonQuotaKey a d1 ≠ getIpQuotaKey i d3
      ∧ getUserQuotaKey u d2 ≠ getIpQuotaKey i d3
      ∧ getLinkAnonKey u' a' d4 ≠ getAnonQuotaKey a d1
      ∧ getLinkAnonKey u' a' d4 ≠ getUserQuotaKey u d2
      ∧ getLinkAnonKey u' a' d4 ≠ getIpQuotaKey i d3)
  ∧ (∀ k x y d, quotaKey k x d = quotaKey k y d ↔ x = y).
Proof.
  split.
  - intros. unfold getAnonQuotaKey, getUserQuotaKey, getIpQuotaKey, getLinkAnonKey.
    simpl. repeat split; discriminate.
  - intros k x y d. split; [|by intros ->].
    destruct k; simpl; unfold getAnonQuotaKey, getUserQuotaKey, getIpQuotaKey;
      intros H; apply append_cancel_l in H; by apply append_cancel_r in H.
Qed.

(* ===================================================================== *)
(** ** Further properties: usage snapshots *)
(* ===================================================================== *)

Lemma run_bind {A B : Type} (p : redis A) (f : A → redis B) :
  ∀ s : gmap string entry,
    run (bind p f) s = run (f (fst (run p s))) (snd (run p s)).
Proof. induction p as [a|key k IH|key k IH|cmds k IH]; intros s; simpl; done. Qed.

(** X3.  A usage snapshot leaves the store as it is, and taken right
    after a quota check of the same identity on the same day, both made
    at least one second before the next UTC midnight, it reports the
    [remaining] the check replied, for the anonymous ids (of 10) as for
    the users (of 20), whether the check was allowed or refused; the time
    to live that the check gives the counter has not run out at the
    snapshot. *)
Theorem usage_after_check_agrees
    (identityKey : string) (d0 date date' : Date) (s : gmap string entry) :
  sameDay d0 date → sameDay d0 date' →
  beforeLastSecond date → beforeLastSecond date' →
  (let checked := run (checkAnonQuota identityKey date) s in
   let snapshot := run (getAnonQuotaUsage identityKey date') (snd checked) in
   snd snapshot = snd checked
   ∧ Usage.limit (fst snapshot) = 10
   ∧ Usage.used (fst snapshot) = counter (snd checked) (getAnonQuotaKey identityKey d0)
   ∧ Usage.remaining (fst snapshot) = remaining (fst checked))
  ∧ (let checked := run (checkUserQuota identityKey date) s in
     let snapshot := run (getUserQuotaUsage identityKey date') (snd checked) in
     snd snapshot = snd checked
     ∧ Usage.limit (fst snapshot) = 20
     ∧ Usage.used (fst snapshot) = counter (snd checked) (getUserQuotaKey identityKey d0)
     ∧ Usage.remaining (fst snapshot) = remaining (fst checked))
  ∧ date' < date + 1000 * getSecondsUntilMidnight date.
Proof.
  intros Hd Hd' Hb Hb'.
  assert (Hgen : ∀ k, (k = Anonymous ∨ k = User) →
    let checked := run (checkAndIncrement k identityKey date) s in
    let c' := counter (snd checked) (quotaKey k identityKey d0) in
    Z.max 0 (ceiling k - c') = remaining (fst checked)).
  { intros k Hk checked c'. subst checked c'.
    destruct (Z_lt_le_dec (counter s (quotaKey k identityKey d0)) (ceiling k)) as [Hlt|Hge].
    - rewrite (run_allowed_at k identityKey d0 date s _ Hd Hb eq_refl Hlt).
      cbn [fst snd remaining]. rewrite counter_insert. cbn [value]. lia.
    - rewrite (run_refused_at k identityKey d0 date s Hd Hge).
      cbn [fst snd remaining]. lia. }
  split.
  - intros checked snapshot. subst snapshot. unfold getAnonQuotaUsage. cbn [run fst snd Usage.limit Usage.used Usage.remaining].
    rewrite (quotaKey_sameDay Anonymous _ _ _ Hd'). cbn [quotaKey].
    fold (counter (snd checked) (getAnonQuotaKey identityKey d0)).
    repeat split. apply (Hgen Anonymous). by left.
  - split; [|by apply (written_key_outlives_calls d0)].
    intros checked snapshot. subst snapshot. unfold getUserQuotaUsage. cbn [run fst snd Usage.limit Usage.used Usage.remaining].
    rewrite (quotaKey_sameDay User _ _ _ Hd'). cbn [quotaKey].
    fold (counter (snd checked) (getUserQuotaKey identityKey d0)).
    repeat split. apply (Hgen User). by right.
Qed.

Lemma usage_after_check_agrees_witness :
  let now := 1705314600000 in
  let checked := run (checkAnonQuota "abc" now) ∅ in
  let snapshot := run (getAnonQuotaUsage "abc" (now + 1000)) (snd checked) in
  Usage.remaining (fst snapshot) = 9 ∧ remaining (fst checked) = 9.
Proof.
  intros now checked snapshot.
  destruct (usage_after_check_agrees "abc" now now (now + 1000) ∅) as [(_ & _ & _ & H) _].
  - reflexivity.
  - reflexivity.
  - by vm_compute.
  - by vm_compute.
  - split; [etrans; [exact H|]|]; reflexivity.
Defined.

(** X4.  The link adds the anonymous count to the user's counter without
    looking at the user's ceiling.  The calls are made at least one
    second before the next UTC midnight.  After the link the user's
    snapshot reports [used] as the sum, which may exceed the limit of 20,
    with [remaining] never below 0, and the user's next check is allowed
    exactly when the sum is below 20; the time to live that the link gives
    the user's counter has not run out by then. *)
Theorem link_may_exhaust_user_quota
    (userId anonId : string) (d0 date date' : Date) (s : gmap string entry) :
  sameDay d0 date → sameDay d0 date' →
  beforeLastSecond date → beforeLastSecond date' →
  s !! getLinkAnonKey userId anonId d0 = None →
  counter s (getAnonQuotaKey anonId d0) ≠ 0 →
  let total := counter s (getUserQuotaKey userId d0)
               + counter s (getAnonQuotaKey anonId d0) in
  let s1 := snd (run (linkAnonQuota userId anonId date) s) in
  fst (run (getUserQuotaUsage userId date') s1)
  = Usage.Make total 20 (Z.max 0 (20 - total))
  ∧ allowed (fst (run (checkUserQuota userId date') s1)) = (total <? 20)
  ∧ date' < date + 1000 * getSecondsUntilMidnight date.
Proof.
  intros Hd Hd' Hb Hb' Hfree Hcount total s1. subst s1.
  assert (Hlive : date' < date + 1000 * getSecondsUntilMidnight date)
    by (by apply (written_key_outlives_calls d0)).
  rewrite linkAnonQuota_links;
    rewrite ?(getLinkAnonKey_sameDay _ _ _ _ Hd),
            ?(quotaKey_sameDay Anonymous _ _ _ Hd),
            ?(quotaKey_sameDay User _ _ _ Hd); cbn [quotaKey]; [|done|done|done].
  cbn [snd]. fold total.
  set (s1 := <[getLinkAnonKey userId anonId d0 := _]> _).
  assert (Hc : counter s1 (getUserQuotaKey userId d0) = total).
  { subst s1. rewrite counter_insert_ne by apply linkKey_ne_userKey.
    by rewrite counter_insert. }
  split.
  - unfold getUserQuotaUsage. cbn [run fst].
    rewrite (quotaKey_sameDay User _ _ _ Hd'). cbn [quotaKey].
    fold (counter s1 (getUserQuotaKey userId d0)). by rewrite Hc.
  - split; [|exact Hlive].
    change (checkUserQuota userId) with (checkAndIncrement User userId).
    rewrite run_reply, (quotaKey_sameDay User _ _ _ Hd'). cbn [quotaKey ceiling].
    rewrite Hc. destruct (Z.leb_spec 20 total), (Z.ltb_spec total 20); done || lia.
Qed.

Lemma link_may_exhaust_user_quota_witness :
  let now := 1705314600000 in
  let s : gmap string entry :=
    <[getUserQuotaKey "user123" now := Entry 15 (Some 48600)]>
      (<[getAnonQuotaKey "abc123" now := Entry 10 (Some 48600)]> ∅) in
  let s1 := snd (run (linkAnonQuota "user123" "abc123" now) s) in
  fst (run (getUserQuotaUsage "user123" now) s1) = Usage.Make 25 20 0
  ∧ allowed (fst (run (checkUserQuota "user123" now) s1)) = false
  ∧ now < now + 1000 * getSecondsUntilMidnight now.
Proof.
  intros now s s1.
  apply (link_may_exhaust_user_quota "user123" "abc123" now now now s).
  - reflexivity.
  - reflexivity.
  - by vm_compute.
  - by vm_compute.
  - vm_compute. reflexivity.
  - vm_compute. discriminate.
Defined.

(* ===================================================================== *)
(** ** Further properties: the rate-limit middleware *)
(* ===================================================================== *)

Lemma ipKey_ne_quotaKey k identityKey ip d d' :
  (k = Anonymous ∨ k = User) → getIpQuotaKey ip d ≠ quotaKey k identityKey d'.
Proof.
  intros [-> | ->]; simpl;
    unfold getIpQuotaKey, getAnonQuotaKey, getUserQuotaKey; simpl; discriminate.
Qed.

Lemma identityOf_kind req k identityKey :
  identityOf req = Some (k, identityKey) → k = Anonymous ∨ k = User.
Proof.
  unfold identityOf. destruct (Request.anonId req); [|discriminate].
  destruct (truthy (Some _)); [|discriminate].
  destruct (Request.userId req); [destruct (truthy (Some _))|]; intros [= <- _]; auto.
Qed.

(** The middleware, for a request with an identity: the IP check, and
    then the check of the identity. *)
Lemma limitEnhance_run req clientIp dateIp dateId k identityKey (s : gmap string entry) :
  identityOf req = Some (k, identityKey) →
  run (limitEnhance req clientIp dateIp dateId) s
  = let ip := run (checkIpQuota clientIp (truthy (Request.userId req)) dateIp) s in
    if negb (allowed (fst ip))
    then (SendRateLimit "Too many requests from this IP address" "tomorrow", snd ip)
    else
      let own := run (checkAndIncrement k identityKey dateId) (snd ip) in
      if negb (allowed (fst own))
      then (SendRateLimit (limitMessage k) "tomorrow", snd own)
      else (Next (pretty (remaining (fst own))) (pretty (ceiling k)), snd own).
Proof.
  unfold identityOf, limitEnhance.
  destruct (Request.anonId req) as [anon|]; [|discriminate].
  destruct (truthy (Some anon)); [|discriminate]. cbn [negb].
  destruct (Request.userId req) as [usr|].
  - destruct (truthy (Some usr)); intros [= <- <-]; rewrite run_bind;
      cbn zeta; destruct (allowed _); cbn [negb]; try done;
      rewrite run_bind; cbn [checkAndIncrement]; destruct (allowed _); done.
  - intros [= <- <-]. rewrite run_bind. cbn zeta.
    destruct (allowed _); cbn [negb]; [|done].
    rewrite run_bind. cbn [checkAndIncrement]. destruct (allowed _); done.
Qed.

(** X5.  When the counter of the client's IP address has reached its
    ceiling (60 for a signed-in caller, 30 otherwise), the middleware
    replies 429 for the address and leaves the store as it is: the check of
    the caller's own quota is not run, and none of its slots is used. *)
Theorem limitEnhance_ip_exhausted
    (req : Request.t) (clientIp : string) (dateIp dateId : Date)
    (k : kind) (identityKey : string) (s : gmap string entry) :
  identityOf req = Some (k, identityKey) →
  ceiling (Ip (truthy (Request.userId req))) <= counter s (getIpQuotaKey clientIp dateIp) →
  run (limitEnhance req clientIp dateIp dateId) s
  = (SendRateLimit "Too many requests from this IP address" "tomorrow", s).
Proof.
  intros Hid Hfull. rewrite (limitEnhance_run _ _ _ _ _ _ _ Hid). cbn zeta.
  change (checkIpQuota clientIp (truthy (Request.userId req)))
    with (checkAndIncrement (Ip (truthy (Request.userId req))) clientIp).
  rewrite run_refused by exact Hfull. done.
Qed.

Lemma limitEnhance_ip_exhausted_witness :
  let now := 1705314600000 in
  let req := Request.Req (Some "abc") None (Some "abc") in
  let s : gmap string entry := <[getIpQuotaKey "10.0.0.1" now := Entry 30 (Some 48600)]> ∅ in
  run (limitEnhance req "10.0.0.1" now now) s
  = (SendRateLimit "Too many requests from this IP address" "tomorrow", s).
Proof.
  intros now req s.
  apply (limitEnhance_ip_exhausted req "10.0.0.1" now now Anonymous "abc" s).
  - reflexivity.
  - vm_compute. discriminate.
Defined.

(** X6.  When the IP address has slots left but the caller's own counter
    has reached its ceiling, the middleware replies 429 for the caller,
    and the request has still used one slot of the IP address: for a
    request made at least one second before the next UTC midnight, the
    address's counter is one higher, with its time to live renewed, and
    nothing else in the store has changed. *)
Theorem limitEnhance_identity_exhausted
    (req : Request.t) (clientIp : string) (dateIp dateId : Date)
    (k : kind) (identityKey : string) (s : gmap string entry) :
  identityOf req = Some (k, identityKey) →
  beforeLastSecond dateIp →
  counter s (getIpQuotaKey clientIp dateIp) < ceiling (Ip (truthy (Request.userId req))) →
  ceiling k <= counter s (quotaKey k identityKey dateId) →
  run (limitEnhance req clientIp dateIp dateId) s
  = (SendRateLimit (limitMessage k) "tomorrow",
     <[getIpQuotaKey clientIp dateIp :=
         Entry (counter s (getIpQuotaKey clientIp dateIp) + 1)
               (Some (getSecondsUntilMidnight dateIp))]> s).
Proof.
  intros Hid Hb Hip Hfull. rewrite (limitEnhance_run _ _ _ _ _ _ _ Hid). cbn zeta.
  change (checkIpQuota clientIp (truthy (Request.userId req)))
    with (checkAndIncrement (Ip (truthy (Request.userId req))) clientIp).
  rewrite run_allowed by done. cbn [fst snd allowed negb quotaKey].
  rewrite run_refused; [done|].
  rewrite counter_insert_ne; [done|].
  apply ipKey_ne_quotaKey, (identityOf_kind _ _ _ Hid).
Qed.

Lemma limitEnhance_identity_exhausted_witness :
  let now := 1705314600000 in
  let req := Request.Req (Some "abc") None (Some "abc") in
  let s : gmap string entry := <[getAnonQuotaKey "abc" now := Entry 10 (Some 48600)]> ∅ in
  run (limitEnhance req "10.0.0.1" now now) s
  = (SendRateLimit (limitMessage Anonymous) "tomorrow",
     <[getIpQuotaKey "10.0.0.1" now :=
         Entry (counter s (getIpQuotaKey "10.0.0.1" now) + 1)
               (Some (getSecondsUntilMidnight now))]> s).
Proof.
  intros now req s.
  apply (limitEnhance_identity_exhausted req "10.0.0.1" now now Anonymous "abc" s).
  - reflexivity.
  - by vm_compute.
  - vm_compute. reflexivity.
  - vm_compute. discriminate.
Defined.

(** X7.  When both counters are below their ceilings the request goes on:
    for a request whose two checks are made at least one second before
    the next UTC midnight, each of the two counters is one higher, with
    its time to live renewed, the header [X-RateLimit-Remaining] is the
    caller's ceiling less the new count and [X-RateLimit-Limit] is the
    caller's ceiling.  The counter of a signed-in caller's anonymous id is
    not touched. *)
Theorem limitEnhance_allowed
    (req : Request.t) (clientIp : string) (dateIp dateId : Date)
    (k : kind) (identityKey : string) (s : gmap string entry) :
  identityOf req = Some (k, identityKey) →
  beforeLastSecond dateIp → beforeLastSecond dateId →
  counter s (getIpQuotaKey clientIp dateIp) < ceiling (Ip (truthy (Request.userId req))) →
  counter s (quotaKey k identityKey dateId) < ceiling k →
  let own := counter s (quotaKey k identityKey dateId) in
  let s' :=
    <[quotaKey k identityKey dateId :=
        Entry (own + 1) (Some (getSecondsUntilMidnight dateId))]>
      (<[getIpQuotaKey clientIp dateIp :=
           Entry (counter s (getIpQuotaKey clientIp dateIp) + 1)
                 (Some (getSecondsUntilMidnight dateIp))]> s) in
  run (limitEnhance req clientIp dateIp dateId) s
  = (Next (pretty (ceiling k - (own + 1))) (pretty (ceiling k)), s')
  ∧ (k = User → ∀ anonId date,
       counter s' (getAnonQuotaKey anonId date) = counter s (getAnonQuotaKey anonId date)).
Proof.
  intros Hid Hbip Hbid Hip Hown own s'. subst own s'.
  pose proof (identityOf_kind _ _ _ Hid) as Hk. split.
  - rewrite (limitEnhance_run _ _ _ _ _ _ _ Hid). cbn zeta.
    change (checkIpQuota clientIp (truthy (Request.userId req)))
      with (checkAndIncrement (Ip (truthy (Request.userId req))) clientIp).
    rewrite run_allowed by done. cbn [fst snd allowed negb quotaKey].
    assert (Hsame : counter (<[getIpQuotaKey clientIp dateIp :=
                               Entry (counter s (getIpQuotaKey clientIp dateIp) + 1)
                                 (Some (getSecondsUntilMidnight dateIp))]> s)
                            (quotaKey k identityKey dateId)
                    = counter s (quotaKey k identityKey dateId)).
    { rewrite counter_insert_ne; [done|]. by apply ipKey_ne_quotaKey. }
    rewrite run_allowed by (done || by rewrite Hsame).
    cbn [fst snd allowed negb remaining]. rewrite Hsame.
    do 3 f_equal. lia.
  - intros -> anonId date. cbn [quotaKey].
    rewrite counter_insert_ne by (apply not_eq_sym, anonKey_ne_userKey).
    rewrite counter_insert_ne; [done|].
    apply (ipKey_ne_quotaKey Anonymous). by left.
Qed.

Lemma limitEnhance_allowed_witness :
  let now := 1705314600000 in
  let req := Request.Req (Some "abc") (Some "user123") (Some "abc") in
  fst (run (limitEnhance req "10.0.0.1" now now) ∅) = Next "19" "20".
Proof.
  intros now req.
  destruct (limitEnhance_allowed req "10.0.0.1" now now User "user123" ∅) as [H _].
  - reflexivity.
  - by vm_compute.
  - by vm_compute.
  - vm_compute. reflexivity.
  - vm_compute. reflexivity.
  - rewrite H. vm_compute. reflexivity.
Defined.

(* ===================================================================== *)
(** ** Further properties: quota checks in flight together *)
(* ===================================================================== *)

Section InFlight.

Variables (k : kind) (identityKey : string) (d0 : Date).

#[local] Abbreviation key := (quotaKey k identityKey d0).

(** What is known of the dates of the checks, and what relates the
    counter in the store to the bound kept for the refused checks. *)
Variable P : Date → Prop.
Variable R : Z → Z → Prop.

Hypothesis R_read : ∀ c bound, R c bound → ceiling k <= c → ceiling k <= bound.

Hypothesis R_write : ∀ (s : gmap string entry) date bound,
  P date →
  R (counter s key) bound →
  R (counter (exec_multi [INCR key; EXPIRE key (getSecondsUntilMidnight date)] s) key)
    (bound + 1).

Lemma repliedAllowed_check date : repliedAllowed (checkAndIncrement k identityKey date) = false.
Proof. by rewrite checkAndIncrement_body. Qed.

Lemma inFlight_mono (bound bound' : Z) p :
  bound <= bound' →
  inFlight k identityKey d0 P bound p → inFlight k identityKey d0 P bound' p.
Proof.
  intros Hle [date Hd Hp|date r Hd Hp|Hfull|r].
  - by apply ToRead.
  - by apply ToWrite.
  - apply RepliedRefused. lia.
  - apply RepliedAllowed.
Qed.

(** One round trip of a check keeps it in one of its states; the bound
    grows by one exactly when the check becomes allowed, which is when
    its transaction runs. *)
Lemma step_inFlight (s : gmap string entry) (bound : Z) p :
  inFlight k identityKey d0 P bound p →
  R (counter s key) bound →
  inFlight k identityKey d0 P (bound + tally (fst (step p s)) - tally p) (fst (step p s))
  ∧ R (counter (snd (step p s)) key) (bound + tally (fst (step p s)) - tally p)
  ∧ 0 <= tally (fst (step p s)) - tally p.
Proof.
  intros [date Hd Hp|date r Hd Hp|Hfull|r] HR.
  - rewrite checkAndIncrement_body. cbn [step fst snd]. cbn zeta.
    set (c := parseCount (redis_get s (quotaKey k identityKey date))).
    assert (Hc : c = counter s key).
    { subst c. by rewrite (quotaKey_sameDay _ _ _ _ Hd). }
    destruct (Z.leb_spec (ceiling k) c) as [Hfull|Hlt]; unfold tally; simpl;
      rewrite Z.add_0_r, Z.sub_0_r.
    + split; [|done]. apply RepliedRefused. apply (R_read c); [by rewrite Hc|done].
    + split; [|done]. by apply ToWrite.
  - cbn [step fst snd]. rewrite (quotaKey_sameDay _ _ _ _ Hd).
    unfold tally. simpl. rewrite Z.sub_0_r.
    split; [apply RepliedAllowed|]. split; [by apply R_write|lia].
  - cbn [step fst snd]. replace (bound + _ - _) with bound by lia.
    split; [by apply RepliedRefused|]. split; [done|lia].
  - cbn [step fst snd]. replace (bound + _ - _) with bound by lia.
    split; [apply RepliedAllowed|]. split; [done|lia].
Qed.

Lemma allowedCount_cons p calls :
  Z.of_nat (allowedCount (p :: calls)) = tally p + Z.of_nat (allowedCount calls).
Proof.
  unfold allowedCount, tally. rewrite filter_cons.
  destruct (repliedAllowed p); simpl length; [|done].
  destruct (decide (true = true)); [|done]. simpl length. lia.
Qed.

Lemma allowedCount_insert calls :
  ∀ (i : nat) (p p' : redis quota),
    calls !! i = Some p →
    Z.of_nat (allowedCount (<[i := p']> calls))
    = Z.of_nat (allowedCount calls) + tally p' - tally p.
Proof.
  induction calls as [|q calls IH]; intros [|i] p p' Hi; try discriminate.
  - injection Hi as ->. change (<[0%nat := p']> (p :: calls)) with (p' :: calls).
    rewrite !allowedCount_cons. lia.
  - change (<[S i := p']> (q :: calls)) with (q :: <[i := p']> calls).
    rewrite !allowedCount_cons. rewrite (IH i p p' Hi). lia.
Qed.

Lemma allowedCount_checks dates :
  allowedCount (checkAndIncrement k identityKey <$> dates) = 0%nat.
Proof.
  unfold allowedCount. induction dates as [|d dates IH]; [done|].
  rewrite fmap_cons, filter_cons, repliedAllowed_check.
  by destruct (decide (false = true)).
Qed.

(** However the round trips are interleaved, the checks stay in their
    states, with the bound that started at [c0] raised by the number of
    checks allowed so far. *)
Lemma interleave_inFlight (c0 : Z) (schedule : list nat) :
  ∀ (calls : list (redis quota)) (s : gmap string entry),
    Forall (inFlight k identityKey d0 P (c0 + Z.of_nat (allowedCount calls))) calls →
    R (counter s key) (c0 + Z.of_nat (allowedCount calls)) →
    Forall (inFlight k identityKey d0 P
              (c0 + Z.of_nat (allowedCount (fst (interleave schedule calls s)))))
      (fst (interleave schedule calls s))
    ∧ R (counter (snd (interleave schedule calls s)) key)
        (c0 + Z.of_nat (allowedCount (fst (interleave schedule calls s))))
    ∧ length (fst (interleave schedule calls s)) = length calls.
Proof.
  induction schedule as [|i schedule IH]; intros calls s Hall HR; [done|].
  cbn [interleave]. destruct (calls !! i) as [p|] eqn:Hi; [|by apply IH].
  pose proof (proj1 (Forall_lookup _ _) Hall i p Hi) as Hp.
  destruct (step_inFlight s _ p Hp HR) as (Hp' & HR' & Hle).
  destruct (step p s) as [p' s'] eqn:Hstep. cbn [fst snd] in Hp', HR', Hle.
  pose proof (allowedCount_insert calls i p p' Hi) as Hcount.
  replace (c0 + Z.of_nat (allowedCount calls) + tally p' - tally p)
    with (c0 + Z.of_nat (allowedCount (<[i := p']> calls))) in Hp', HR' by lia.
  assert (Hall' : Forall (inFlight k identityKey d0 P
                            (c0 + Z.of_nat (allowedCount (<[i := p']> calls))))
                    (<[i := p']> calls)).
  { apply Forall_insert; [|done].
    eapply Forall_impl; [exact Hall|]. intros q. apply inFlight_mono. lia. }
  destruct (IH _ _ Hall' HR') as (IH1 & IH2 & IH3).
  split; [done|]. split; [done|]. by rewrite IH3, length_insert.
Qed.

(** Once every check has replied, either all were allowed or the bound
    has reached the ceiling. *)
Lemma replied_inFlight (bound : Z) calls :
  Forall (inFlight k identityKey d0 P bound) calls →
  Forall (λ p, replied p = true) calls →
  allowedCount calls = length calls ∨ ceiling k <= bound.
Proof.
  induction calls as [|p calls IH]; intros Hall Hdone; [by left|].
  apply Forall_cons in Hall as [Hp Hall]. apply Forall_cons in Hdone as [Hr Hdone].
  destruct Hp as [date Hd Hp|date r Hd Hp|Hfull|r].
  - by rewrite checkAndIncrement_body in Hr.
  - discriminate.
  - by right.
  - destruct (IH Hall Hdone) as [Hcount|Hfull]; [left|by right].
    apply Nat2Z.inj. rewrite allowedCount_cons. unfold tally. simpl. lia.
Qed.

End InFlight.

Lemma allowedCount_le (calls : list (redis quota)) : (allowedCount calls <= length calls)%nat.
Proof. unfold allowedCount. apply length_filter. Qed.

(** X8.  However the round trips of quota checks of one identity on one
    day, each made at least one second before the next UTC midnight, are
    interleaved, and wherever the interleaving is stopped, the counter has
    grown by exactly the number of checks that were allowed so far: no
    allowed check is lost and none is counted twice, and a refused check
    leaves the counter alone; and the time to live that any of the checks
    gives the counter has not run out when any of them is made. *)
Theorem interleaved_checks_count_each_allowed
    (k : kind) (identityKey : string) (d0 : Date) (dates : list Date)
    (schedule : list nat) (s : gmap string entry) :
  Forall (sameDay d0) dates →
  Forall beforeLastSecond dates →
  let '(calls, s') :=
    interleave schedule (checkAndIncrement k identityKey <$> dates) s in
  counter s' (quotaKey k identityKey d0)
  = counter s (quotaKey k identityKey d0) + Z.of_nat (allowedCount calls)
  ∧ length calls = length dates
  ∧ (∀ d d', d ∈ dates → d' ∈ dates → d' < d + 1000 * getSecondsUntilMidnight d).
Proof.
  intros Hdays Hbefore.
  pose proof (written_keys_outlive_calls d0 dates Hdays Hbefore) as Hlive.
  set (c0 := counter s (quotaKey k identityKey d0)).
  pose proof (allowedCount_checks k identityKey dates) as Hzero.
  assert (Hread : ∀ c bound : Z, c = bound → ceiling k <= c → ceiling k <= bound)
    by (intros; lia).
  assert (Hwrite : ∀ (s0 : gmap string entry) date bound,
            beforeLastSecond date →
            counter s0 (quotaKey k identityKey d0) = bound →
            counter (exec_multi [INCR (quotaKey k identityKey d0);
                                 EXPIRE (quotaKey k identityKey d0)
                                   (getSecondsUntilMidnight date)] s0)
              (quotaKey k identityKey d0)
            = bound + 1).
  { intros s0 date bound Hb <-. by rewrite exec_incr_expire, counter_insert. }
  destruct (interleave_inFlight k identityKey d0 beforeLastSecond (λ c bound, c = bound)
              Hread Hwrite c0 schedule (checkAndIncrement k identityKey <$> dates) s)
    as (_ & Hcount & Hlen).
  - rewrite Hzero. apply Forall_fmap, Forall_forall. intros d Hin.
    apply ToRead; [by apply (proj1 (Forall_forall _ _) Hdays)
                  |by apply (proj1 (Forall_forall _ _) Hbefore)].
  - rewrite Hzero. subst c0. simpl. lia.
  - destruct (interleave schedule _ s) as [calls s']. cbn [fst snd] in *.
    rewrite length_fmap in Hlen. done.
Qed.

Lemma interleaved_checks_count_each_allowed_witness :
  let now := 1705314600000 in
  let '(calls, s') :=
    interleave [0; 1; 2; 0; 1]%nat
      (checkAndIncrement Anonymous "abc" <$> [now; now + 1; now + 2])
      (<[getAnonQuotaKey "abc" now := Entry 9 (Some 48600)]> ∅) in
  counter s' (quotaKey Anonymous "abc" now)
  = counter (<[getAnonQuotaKey "abc" now := Entry 9 (Some 48600)]> ∅)
      (quotaKey Anonymous "abc" now)
    + Z.of_nat (allowedCount calls)
  ∧ length calls = 3%nat
  ∧ (∀ d d', d ∈ [now; now + 1; now + 2] → d' ∈ [now; now + 1; now + 2] →
       d' < d + 1000 * getSecondsUntilMidnight d).
Proof.
  apply (interleaved_checks_count_each_allowed Anonymous "abc" 1705314600000
           [1705314600000; 1705314600000 + 1; 1705314600000 + 2] [0; 1; 2; 0; 1]%nat
           (<[getAnonQuotaKey "abc" 1705314600000 := Entry 9 (Some 48600)]> ∅)).
  - repeat constructor.
  - repeat constructor.
Defined.

(** X9.  Interleaving can only let too many checks through, never too
    few.  Once all the checks of one identity on one day have replied,
    whatever the interleaving was and whenever in the day they were made,
    the number allowed is at least the number of calls or the number of
    free slots the counter had, whichever is smaller (and at most the
    number of calls).  The counter is not negative to start with, as no
    counter that [INCR] and [INCRBY] write is: a check in the last second
    of the day deletes it, which lowers a counter that is not negative
    and would raise one that is. *)
Theorem interleaved_checks_allow_at_least
    (k : kind) (identityKey : string) (d0 : Date) (dates : list Date)
    (schedule : list nat) (s : gmap string entry) :
  Forall (sameDay d0) dates →
  0 <= counter s (quotaKey k identityKey d0) →
  let calls := fst (interleave schedule (checkAndIncrement k identityKey <$> dates) s) in
  Forall (λ p, replied p = true) calls →
  Z.min (Z.of_nat (length dates)) (ceiling k - counter s (quotaKey k identityKey d0))
  <= Z.of_nat (allowedCount calls) <= Z.of_nat (length dates).
Proof.
  intros Hdays Hc0 calls Hdone.
  set (c0 := counter s (quotaKey k identityKey d0)) in *.
  pose proof (allowedCount_checks k identityKey dates) as Hzero.
  assert (Hread : ∀ c bound : Z, 0 <= c <= bound → ceiling k <= c → ceiling k <= bound)
    by (intros; lia).
  assert (Hwrite : ∀ (s0 : gmap string entry) (date : Date) bound,
            True →
            0 <= counter s0 (quotaKey k identityKey d0) <= bound →
            0 <= counter (exec_multi [INCR (quotaKey k identityKey d0);
                                      EXPIRE (quotaKey k identityKey d0)
                                        (getSecondsUntilMidnight date)] s0)
                   (quotaKey k identityKey d0)
            <= bound + 1).
  { intros s0 date bound _ Hb.
    destruct (Z_lt_le_dec 0 (getSecondsUntilMidnight date)).
    - rewrite exec_incr_expire, counter_insert by done. simpl. lia.
    - rewrite exec_incr_expire_last, counter_delete by done. lia. }
  destruct (interleave_inFlight k identityKey d0 (λ _, True) (λ c bound, 0 <= c <= bound)
              Hread Hwrite c0 schedule (checkAndIncrement k identityKey <$> dates) s)
    as (Hfl & _ & Hlen).
  - rewrite Hzero. apply Forall_fmap, Forall_forall. intros d Hin.
    apply ToRead; [by apply (proj1 (Forall_forall _ _) Hdays)|done].
  - rewrite Hzero. subst c0. simpl. lia.
  - fold calls in Hfl, Hlen. rewrite length_fmap in Hlen.
    pose proof (allowedCount_le calls) as Hle.
    destruct (replied_inFlight _ _ _ _ _ _ Hfl Hdone) as [Hfull|Hfull]; lia.
Qed.

Lemma interleaved_checks_allow_at_least_witness :
  let now := 1705314600000 in
  let s : gmap string entry := <[getAnonQuotaKey "abc" now := Entry 9 (Some 48600)]> ∅ in
  let calls :=
    fst (interleave [0; 1; 0; 1]%nat
           (checkAndIncrement Anonymous "abc" <$> [now; now + 1]) s) in
  1 <= Z.of_nat (allowedCount calls) <= 2.
Proof.
  intros now s calls.
  apply (interleaved_checks_allow_at_least Anonymous "abc" now [now; now + 1]
           [0; 1; 0; 1]%nat s).
  - repeat constructor.
  - by vm_compute.
  - repeat constructor.
Defined.

Lemma step_check_reads k identityKey d0 date (s : gmap string entry) :
  sameDay d0 date →
  counter s (quotaKey k identityKey d0) < ceiling k →
  step (checkAndIncrement k identityKey date) s
  = (MULTI [INCR (quotaKey k identityKey d0);
            EXPIRE (quotaKey k identityKey d0) (getSecondsUntilMidnight date)]
       (λ _, Ret (Quota true (ceiling k - counter s (quotaKey k identityKey d0) - 1))),
     s).
Proof.
  intros Hd Hlt. rewrite checkAndIncrement_body. cbn [step]. cbn zeta.
  rewrite (quotaKey_sameDay _ _ _ _ Hd).
  fold (counter s (quotaKey k identityKey d0)).
  by destruct (Z.leb_spec (ceiling k) (counter s (quotaKey k identityKey d0))); [lia|].
Qed.

(** X10.  Two checks of one identity, made at least one second before
    the next UTC midnight, that both read the counter before either
    writes are both allowed whenever one slot is left, for every kind of
    identity and every store: both reply the same [remaining], and the
    counter ends two higher, which is above the ceiling when only one slot
    was left. *)
Theorem overlapping_checks_both_allowed
    (k : kind) (identityKey : string) (d0 date1 date2 : Date) (s : gmap string entry) :
  sameDay d0 date1 → sameDay d0 date2 →
  beforeLastSecond date1 → beforeLastSecond date2 →
  counter s (quotaKey k identityKey d0) < ceiling k →
  let c := counter s (quotaKey k identityKey d0) in
  interleave [0; 1; 0; 1]%nat
    [checkAndIncrement k identityKey date1; checkAndIncrement k identityKey date2] s
  = ([Ret (Quota true (ceiling k - c - 1)); Ret (Quota true (ceiling k - c - 1))],
     <[quotaKey k identityKey d0 := Entry (c + 2) (Some (getSecondsUntilMidnight date2))]> s).
Proof.
  intros Hd1 Hd2 Hb1 Hb2 Hlt c. subst c.
  cbn [interleave lookup list_lookup].
  rewrite (step_check_reads _ _ _ _ _ Hd1 Hlt).
  change (<[0%nat := ?p]> [?a; ?b]) with [p; b]. cbn [lookup list_lookup].
  rewrite (step_check_reads _ _ _ _ _ Hd2 Hlt).
  cbn [interleave lookup list_lookup insert list_insert step].
  rewrite !exec_incr_expire, counter_insert, insert_insert_eq by done. cbn [value].
  do 3 f_equal. lia.
Qed.

Lemma overlapping_checks_both_allowed_witness :
  let now := 1705314600000 in
  let s : gmap string entry := <[getUserQuotaKey "user123" now := Entry 19 (Some 48600)]> ∅ in
  interleave [0; 1; 0; 1]%nat
    [checkAndIncrement User "user123" now; checkAndIncrement User "user123" (now + 5)] s
  = ([Ret (Quota true 0); Ret (Quota true 0)],
     <[getUserQuotaKey "user123" now := Entry 21 (Some (getSecondsUntilMidnight (now + 5)))]> s).
Proof.
  intros now s.
  apply (overlapping_checks_both_allowed User "user123" now now (now + 5) s).
  - reflexivity.
  - reflexivity.
  - by vm_compute.
  - by vm_compute.
  - vm_compute. reflexivity.
Defined.

(* ===================================================================== *)
(** ** Further properties: link calls in flight together *)
(* ===================================================================== *)

(** The link call after its first round trip, when no marker was found,
    and after its second, when an anonymous count was read. *)
Lemma step_link_exists userId anonId date (s : gmap string entry) :
  s !! getLinkAnonKey userId anonId date = None →
  step (linkAnonQuota userId anonId date) s
  = (GET (getAnonQuotaKey anonId date) (λ anonCount,
       if parseCount anonCount =? 0 then Ret (LinkResult false 0)
       else
         MULTI [INCRBY (getUserQuotaKey userId date) (parseCount anonCount);
                EXPIRE (getUserQuotaKey userId date) (getSecondsUntilMidnight date);
                SETEX (getLinkAnonKey userId anonId date)
                      (getSecondsUntilMidnight date) 1]
           (λ _, Ret (LinkResult true (parseCount anonCount)))),
     s).
Proof.
  intros Hfree. unfold linkAnonQuota. cbn [step].
  by rewrite (redis_exists_false _ _ Hfree).
Qed.

(** X11.  The link is three round trips: the look for the marker, the
    read of the anonymous count, and the transaction.  Two link calls of
    one user and anonymous id on one day, made at least one second before
    the next UTC midnight, that both look for the marker before either
    transaction runs both reply [{linked: true, count: c}], and the
    user's counter ends with the anonymous count added twice. *)
Theorem overlapping_links_fold_twice
    (userId anonId : string) (d0 date1 date2 : Date) (s : gmap string entry) :
  sameDay d0 date1 → sameDay d0 date2 →
  beforeLastSecond date1 → beforeLastSecond date2 →
  s !! getLinkAnonKey userId anonId d0 = None →
  counter s (getAnonQuotaKey anonId d0) ≠ 0 →
  let c := counter s (getAnonQuotaKey anonId d0) in
  let after :=
    interleave [0; 1; 0; 1; 0; 1]%nat
      [linkAnonQuota userId anonId date1; linkAnonQuota userId anonId date2] s in
  fst after = [Ret (LinkResult true c); Ret (LinkResult true c)]
  ∧ counter (snd after) (getUserQuotaKey userId d0)
    = counter s (getUserQuotaKey userId d0) + 2 * c.
Proof.
  intros Hd1 Hd2 Hb1 Hb2 Hfree Hcount c after. subst after.
  assert (Hk1 : getLinkAnonKey userId anonId date1 = getLinkAnonKey userId anonId d0
                ∧ getAnonQuotaKey anonId date1 = getAnonQuotaKey anonId d0
                ∧ getUserQuotaKey userId date1 = getUserQuotaKey userId d0).
  { split; [by apply getLinkAnonKey_sameDay|].
    split; [apply (quotaKey_sameDay Anonymous _ _ _ Hd1)
           |apply (quotaKey_sameDay User _ _ _ Hd1)]. }
  assert (Hk2 : getLinkAnonKey userId anonId date2 = getLinkAnonKey userId anonId d0
                ∧ getAnonQuotaKey anonId date2 = getAnonQuotaKey anonId d0
                ∧ getUserQuotaKey userId date2 = getUserQuotaKey userId d0).
  { split; [by apply getLinkAnonKey_sameDay|].
    split; [apply (quotaKey_sameDay Anonymous _ _ _ Hd2)
           |apply (quotaKey_sameDay User _ _ _ Hd2)]. }
  destruct Hk1 as (Hl1 & Ha1 & Hu1). destruct Hk2 as (Hl2 & Ha2 & Hu2).
  assert (Hnz : (c =? 0) = false) by (by apply Z.eqb_neq).
  cbn [interleave lookup list_lookup].
  rewrite step_link_exists by (by rewrite Hl1).
  change (<[0%nat := ?p]> [?a; ?b]) with [p; b]. cbn [lookup list_lookup].
  rewrite step_link_exists by (by rewrite Hl2).
  cbn [interleave lookup list_lookup insert list_insert step].
  rewrite Ha1, Ha2, Hu1, Hu2, Hl1, Hl2. fold (counter s (getAnonQuotaKey anonId d0)).
  fold c. rewrite Hnz. cbn [step interleave fst snd].
  rewrite !exec_link by done. split; [done|].
  rewrite counter_insert_ne by apply linkKey_ne_userKey.
  rewrite counter_insert. cbn [value].
  rewrite counter_insert_ne by apply linkKey_ne_userKey.
  rewrite counter_insert. cbn [value]. lia.
Qed.

Lemma overlapping_links_fold_twice_witness :
  let now := 1705314600000 in
  let s : gmap string entry := <[getAnonQuotaKey "abc123" now := Entry 2 (Some 48600)]> ∅ in
  let after :=
    interleave [0; 1; 0; 1; 0; 1]%nat
      [linkAnonQuota "user123" "abc123" now; linkAnonQuota "user123" "abc123" now] s in
  fst after = [Ret (LinkResult true 2); Ret (LinkResult true 2)]
  ∧ counter (snd after) (getUserQuotaKey "user123" now) = 4.
Proof.
  intros now s after.
  apply (overlapping_links_fold_twice "user123" "abc123" now now now s).
  - reflexivity.
  - reflexivity.
  - by vm_compute.
  - by vm_compute.
  - vm_compute. reflexivity.
  - vm_compute. discriminate.
Defined.

(* ===================================================================== *)
(** ** Further properties: the todo list of a session *)
(* ===================================================================== *)

Lemma indexOf_first (x : string) (l1 l2 : list string) :
  x ∉ l1 → Session.indexOf x (l1 ++ x :: l2) = Some (length l1).
Proof.
  unfold Session.indexOf. induction l1 as [|y l1 IH]; intros Hnot; simpl.
  - by rewrite decide_True.
  - apply not_elem_of_cons in Hnot as [Hne Hnot].
    rewrite decide_False by congruence.
    specialize (IH Hnot). destruct (list_find _ _) as [[i z]|]; [|discriminate].
    simpl in *. by injection IH as ->.
Qed.

Lemma indexOf_absent (x : string) (l : list string) :
  x ∉ l → Session.indexOf x l = None.
Proof.
  unfold Session.indexOf. induction l as [|y l IH]; intros Hnot; simpl; [done|].
  apply not_elem_of_cons in Hnot as [Hne Hnot].
  rewrite decide_False by congruence.
  specialize (IH Hnot). by destruct (list_find _ _).
Qed.

Lemma delete_middle {A : Type} (l1 l2 : list A) (x : A) :
  delete (length l1) (l1 ++ x :: l2) = l1 ++ l2.
Proof. induction l1 as [|y l1 IH]; simpl; [done|]. by rewrite IH. Qed.

(** X12.  [addTodo] never makes a duplicate: adding a todo that the list
    holds changes nothing, so adding twice is adding once and the version
    is bumped once; a list without duplicates stays without duplicates;
    and the todo is in the list afterwards. *)
Theorem addTodo_idempotent
    (this : Session.ISession) (todo : string) (now now' : Date) :
  let list := default [] (Session.todos (Session.synopsis this)) in
  let added := Session.addTodo this todo now in
  let list' := default [] (Session.todos (Session.synopsis added)) in
  Session.addTodo added todo now' = added
  ∧ todo ∈ list'
  ∧ (todo ∈ list → added = this)
  ∧ (todo ∉ list →
     list' = list ++ [todo]
     ∧ Session.synopsisVersion added = Session.synopsisVersion this + 1)
  ∧ (NoDup list → NoDup list').
Proof.
  intros list added list'. subst list list' added. unfold Session.addTodo.
  destruct (decide (todo ∈ default [] (Session.todos (Session.synopsis this)))) as [Hin|Hnot].
  - rewrite !(bool_decide_eq_true_2 _ Hin). by repeat split.
  - rewrite !(bool_decide_eq_false_2 _ Hnot). cbn [Session.synopsis Session.todos default].
    rewrite bool_decide_eq_true_2 by (apply elem_of_app; right; apply list_elem_of_here).
    repeat split; try done.
    + apply elem_of_app. right. apply list_elem_of_here.
    + intros Hnd. apply NoDup_app. split; [done|]. split; [|apply NoDup_singleton].
      intros x Hx Hx'. apply list_elem_of_singleton in Hx' as ->. done.
Qed.

Lemma addTodo_idempotent_witness :
  let this :=
    Session.Doc "sess_456" None (Some "abc123") None
      (Session.Synopsis None None None None None (Some ["cite sources"])) 3 1705314600000 in
  let added := Session.addTodo this "add examples" 1705314601000 in
  default [] (Session.todos (Session.synopsis added)) = ["cite sources"; "add examples"]
  ∧ Session.synopsisVersion added = 4
  ∧ Session.addTodo added "add examples" 1705314602000 = added.
Proof.
  intros this added.
  destruct (addTodo_idempotent this "add examples" 1705314601000 1705314602000)
    as (Hsame & _ & _ & Hnew & _).
  destruct Hnew as [Hlist Hversion].
  - vm_compute. intros H. apply list_elem_of_singleton in H. discriminate.
  - split; [exact Hlist|]. split; [exact Hversion|exact Hsame].
Defined.

(** X13.  [removeTodo] removes the first occurrence of the todo and only
    that one, bumping the version; when the list does not hold the todo,
    or there is no list, the session is returned as it is.  So a todo
    that occurs twice is still in the list after one removal. *)
Theorem removeTodo_first_occurrence
    (this : Session.ISession) (todo : string) (now : Date) :
  (Session.todos (Session.synopsis this) = None → Session.removeTodo this todo now = this)
  ∧ (∀ list, Session.todos (Session.synopsis this) = Some list → todo ∉ list →
       Session.removeTodo this todo now = this)
  ∧ (∀ l1 l2, Session.todos (Session.synopsis this) = Some (l1 ++ todo :: l2) →
       todo ∉ l1 →
       let removed := Session.removeTodo this todo now in
       Session.todos (Session.synopsis removed) = Some (l1 ++ l2)
       ∧ Session.synopsisVersion removed = Session.synopsisVersion this + 1
       ∧ Session.lastMessageAt removed = now
       ∧ (todo ∈ l2 → todo ∈ l1 ++ l2)).
Proof.
  unfold Session.removeTodo. split; [by intros ->|]. split.
  - intros list -> Hnot. by rewrite indexOf_absent.
  - intros l1 l2 -> Hnot. rewrite indexOf_first by done. cbn.
    rewrite delete_middle. repeat split. intros Hin. apply elem_of_app. by right.
Qed.

Lemma removeTodo_first_occurrence_witness :
  let this :=
    Session.Doc "sess_456" None (Some "abc123") None
      (Session.Synopsis None None None None None
         (Some ["cite sources"; "add examples"; "cite sources"])) 3 1705314600000 in
  let removed := Session.removeTodo this "cite sources" 1705314601000 in
  Session.todos (Session.synopsis removed) = Some ["add examples"; "cite sources"]
  ∧ Session.synopsisVersion removed = 4.
Proof.
  intros this removed.
  destruct (removeTodo_first_occurrence this "cite sources" 1705314601000) as (_ & _ & H).
  destruct (H [] ["add examples"; "cite sources"]) as (Hl & Hv & _).
  - reflexivity.
  - apply not_elem_of_nil.
  - split; [exact Hl|exact Hv].
Defined.

(** X14.  Removing a todo right after adding it, when the list did not
    hold it, gives the synopsis back as it was, with the version two
    higher. *)
Theorem addTodo_then_removeTodo
    (this : Session.ISession) (todo : string) (now now' : Date) (list : list string) :
  Session.todos (Session.synopsis this) = Some list →
  todo ∉ list →
  let back := Session.removeTodo (Session.addTodo this todo now) todo now' in
  Session.todos (Session.synopsis back) = Some list
  ∧ Session.synopsisVersion back = Session.synopsisVersion this + 2
  ∧ Session.synopsis back = Session.synopsis this.
Proof.
  intros Hlist Hnot back. subst back. unfold Session.addTodo. rewrite Hlist.
  cbn [default]. rewrite bool_decide_eq_false_2 by done.
  unfold Session.removeTodo. cbn [Session.synopsis Session.todos].
  rewrite indexOf_first by done. cbn [Session.synopsis Session.todos Session.synopsisVersion].
  rewrite delete_middle, app_nil_r. split; [done|]. split; [lia|].
  destruct this as [? ? ? ? [] ? ?]. simpl in *. by rewrite Hlist.
Qed.

Lemma addTodo_then_removeTodo_witness :
  let this :=
    Session.Doc "sess_456" None (Some "abc123") None
      (Session.Synopsis None None None None None (Some ["cite sources"])) 3 1705314600000 in
  let back := Session.removeTodo (Session.addTodo this "add examples" 1705314601000)
                "add examples" 1705314602000 in
  Session.todos (Session.synopsis back) = Some ["cite sources"]
  ∧ Session.synopsisVersion back = 5.
Proof.
  intros this back.
  destruct (addTodo_then_removeTodo this "add examples" 1705314601000 1705314602000
              ["cite sources"]) as (Hl & Hv & _).
  - reflexivity.
  - intros H. apply list_elem_of_singleton in H. discriminate.
  - split; [exact Hl|exact Hv].
Defined.

(* ===================================================================== *)
(** ** Further properties: prompt verification *)
(* ===================================================================== *)

Lemma append_cons (c : Ascii.ascii) (s t : string) :
  String c s +:+ t = String c (s +:+ t).
Proof. reflexivity. Qed.

Lemma startsWithI_append (pattern : string) :
  ∀ s after, startsWithI pattern s = true → startsWithI pattern (s +:+ after) = true.
Proof.
  induction pattern as [|p pattern IH]; intros s after H; [by destruct (s +:+ after)|].
  destruct s as [|c s]; [discriminate|]. rewrite append_cons. simpl in *.
  apply andb_prop in H as [-> H]. by rewrite (IH _ _ H).
Qed.

Lemma includesI_append_r (pattern : string) :
  ∀ s after, includesI pattern s = true → includesI pattern (s +:+ after) = true.
Proof.
  intros s. induction s as [|c s IH]; intros after H.
  - simpl in H. rewrite orb_false_r in H.
    destruct pattern; [|discriminate]. by destruct (_ +:+ after).
  - rewrite append_cons. cbn [includesI] in *.
    apply orb_prop in H as [H|H].
    + rewrite <- append_cons. by rewrite (startsWithI_append _ _ _ H).
    + rewrite (IH _ H). apply orb_true_r.
Qed.

Lemma includesI_append_l (pattern : string) :
  ∀ before s, includesI pattern s = true → includesI pattern (before +:+ s) = true.
Proof.
  intros before. induction before as [|c before IH]; intros s H; [done|].
  rewrite append_cons. cbn [includesI]. rewrite (IH _ H). apply orb_true_r.
Qed.

Lemma existsb_impl {A : Type} (f g : A → bool) (l : list A) :
  (∀ x, f x = true → g x = true) → existsb f l = true → existsb g l = true.
Proof.
  intros Hfg. induction l as [|x l IH]; simpl; [done|].
  intros H. apply orb_prop in H as [H|H]; [by rewrite (Hfg _ H)|].
  rewrite (IH H). apply orb_true_r.
Qed.

Lemma found_extend element before prompt after :
  found element prompt = true → found element (before +:+ prompt +:+ after) = true.
Proof.
  unfold found. apply existsb_impl. intros alternatives. unfold testAny.
  apply existsb_impl. intros a H.
  by apply includesI_append_l, includesI_append_r.
Qed.

Lemma verifyPrompt_isValid prompt :
  isValid (verifyPrompt prompt)
  = found "task" prompt && found "object" prompt && found "output" prompt.
Proof.
  unfold verifyPrompt, requiredElements. cbn [verifyLoop].
  by destruct (found "task" prompt), (found "object" prompt), (found "output" prompt).
Qed.

Lemma verifyLoop_missing elements prompt :
  fst (verifyLoop elements prompt) = filter (λ e, found e prompt = false) elements
  ∧ (snd (verifyLoop elements prompt) + length (fst (verifyLoop elements prompt))
     = length elements)%nat.
Proof.
  induction elements as [|e elements [IH1 IH2]]; [done|].
  cbn [verifyLoop]. destruct (verifyLoop elements prompt) as [missing score].
  cbn [fst snd] in *. rewrite filter_cons.
  destruct (found e prompt); simpl; rewrite IH1 in *; split; try done; simpl; lia.
Qed.

(** X15.  The verdict of [verifyPrompt] hangs together: [missing] lists,
    in the order task, object, output, the elements none of whose patterns
    occurs in the prompt; the prompt is valid exactly when nothing is
    missing; and the score is the share of the three elements that were
    found, so it is 1 exactly for a valid prompt. *)
Theorem verifyPrompt_consistent (prompt : string) :
  let v := verifyPrompt prompt in
  missing v = filter (λ e, found e prompt = false) requiredElements
  ∧ (isValid v = true ↔ missing v = [])
  ∧ (verify_score v == (3 - Z.of_nat (length (missing v))) # 3)%Q
  ∧ (isValid v = true ↔ (verify_score v == 1)%Q)
  ∧ (0 <= verify_score v)%Q ∧ (verify_score v <= 1)%Q.
Proof.
  intros v. subst v. unfold verifyPrompt.
  destruct (verifyLoop_missing requiredElements prompt) as [Hm Hs].
  destruct (verifyLoop requiredElements prompt) as [m score].
  cbn [fst snd missing isValid verify_score] in *.
  change (length requiredElements) with 3%nat in *.
  assert (Hlen : (length m <= 3)%nat) by lia.
  assert (Hscore : (inject_Z (Z.of_nat score) / inject_Z (Z.of_nat 3)
                    == (3 - Z.of_nat (length m)) # 3)%Q).
  { unfold Qeq. simpl. lia. }
  split; [done|]. split.
  { rewrite Nat.eqb_eq. by destruct m. }
  split; [exact Hscore|]. split.
  { rewrite Hscore, Nat.eqb_eq. unfold Qeq. simpl. lia. }
  rewrite Hscore. unfold Qle. simpl. lia.
Qed.

(** X16.  The patterns are searched anywhere in the text, so text added
    before or after a prompt never takes an element away: what was found
    stays found, and a valid prompt stays valid. *)
Theorem verifyPrompt_extension (before prompt after : string) :
  (∀ element, found element prompt = true →
              found element (before +:+ prompt +:+ after) = true)
  ∧ (isValid (verifyPrompt prompt) = true →
     isValid (verifyPrompt (before +:+ prompt +:+ after)) = true).
Proof.
  split; [intros element; apply found_extend|].
  rewrite !verifyPrompt_isValid. intros H.
  apply andb_prop in H as [H Ho]. apply andb_prop in H as [Ht Hb].
  by rewrite !found_extend.
Qed.

Lemma verifyPrompt_extension_witness :
  isValid (verifyPrompt ("Please " +:+ "write a summary of the report for a general audience"
                         +:+ ". Thanks!")) = true.
Proof.
  apply (verifyPrompt_extension "Please "
           "write a summary of the report for a general audience" ". Thanks!").
  vm_compute. reflexivity.
Defined.

(* ===================================================================== *)
(** ** Further properties: the follow-up classifier *)
(* ===================================================================== *)

Lemma toLower_eqb_refl c : Ascii.eqb (toLower c) (toLower c) = true.
Proof. apply Ascii.eqb_refl. Qed.

Lemma startsWithI_self (a rest : string) : startsWithI a (a +:+ rest) = true.
Proof.
  induction a as [|c a IH]; [by destruct rest|].
  rewrite append_cons. simpl. by rewrite toLower_eqb_refl, IH.
Qed.

Lemma substring_all (t : string) : String.substring 0 (String.length t) t = t.
Proof. induction t as [|c t IH]; simpl; [done|by rewrite IH]. Qed.

Lemma substring_append_end (s t : string) :
  String.substring (String.length s) (String.length t) (s +:+ t) = t.
Proof.
  induction s as [|c s IH]; [apply substring_all|].
  rewrite append_cons. simpl. exact IH.
Qed.

Lemma endsWith_append (s suffix : string) : endsWith suffix (s +:+ suffix) = true.
Proof.
  unfold endsWith. rewrite length_append.
  replace (String.length s + String.length suffix - String.length suffix)%nat
    with (String.length s) by lia.
  rewrite substring_append_end, String.eqb_refl, andb_true_r.
  apply Nat.leb_le. lia.
Qed.

Lemma isFollowUp_of_match (m : marker) (prompt : string) :
  m ∈ followUpMarkers → test m prompt = true → isFollowUp (classifyInput prompt) = true.
Proof.
  intros Hin Hm. unfold classifyInput. cbn [isFollowUp]. rewrite score_matched.
  assert (Hmem : m ∈ filter (λ m, test m prompt = true) followUpMarkers)
    by by apply list_elem_of_filter.
  destruct (filter _ _); [by apply elem_of_nil in Hmem|done].
Qed.

(** X17.  Every prompt that ends with a question mark is taken for a
    follow-up; and so is every prompt that begins with one of the
    alternatives of a prefix category, whatever comes next, be it a letter
    that continues the word. *)
Theorem classifyInput_suffix_and_prefix :
  (∀ s, isFollowUp (classifyInput (s +:+ "?")) = true)
  ∧ (∀ alternatives a rest,
       StartsWithAny alternatives ∈ followUpMarkers → a ∈ alternatives →
       isFollowUp (classifyInput (a +:+ rest)) = true).
Proof.
  split.
  - intros s. apply (isFollowUp_of_match (EndsWith "?")).
    + unfold followUpMarkers. do 5 apply list_elem_of_further. apply list_elem_of_here.
    + apply endsWith_append.
  - intros alternatives a rest Hin Ha.
    apply (isFollowUp_of_match (StartsWithAny alternatives)); [done|].
    cbn [test]. apply existsb_exists. exists a. split; [by apply list_elem_of_In|].
    apply startsWithI_self.
Qed.

Lemma classifyInput_suffix_and_prefix_witness :
  isFollowUp (classifyInput ("no" +:+ "tify the team about the release")) = true.
Proof.
  apply (proj2 classifyInput_suffix_and_prefix
           ["yes"; "no"; "ok"; "okay"; "sure"; "absolutely"; "definitely"]
           "no" "tify the team about the release").
  - unfold followUpMarkers. do 3 apply list_elem_of_further. apply list_elem_of_here.
  - apply list_elem_of_further, list_elem_of_here.
Defined.

Lemma startsWithI_agree (a : string) :
  ∀ b s, startsWithI a s = true → startsWithI b s = true → agreeI a b = true.
Proof.
  induction a as [|x a IH]; intros b s Ha Hb; [done|].
  destruct b as [|y b]; [done|]. destruct s as [|c s]; [discriminate|].
  simpl in *. apply andb_prop in Ha as [Hx Ha]. apply andb_prop in Hb as [Hy Hb].
  apply Ascii.eqb_eq in Hx, Hy. rewrite Hx, Hy, Ascii.eqb_refl. simpl.
  by apply (IH b s).
Qed.

(** Two prefix categories whose alternatives all disagree somewhere cannot
    both match a text. *)
Lemma prefix_categories_exclusive (l1 l2 : list string) (s : string) :
  forallb (λ a, forallb (λ b, negb (agreeI a b)) l2) l1 = true →
  test (StartsWithAny l1) s = true → test (StartsWithAny l2) s = true → False.
Proof.
  intros Hcheck H1 H2. cbn [test] in *.
  apply existsb_exists in H1 as [a [Ha Hsa]]. apply existsb_exists in H2 as [b [Hb Hsb]].
  rewrite forallb_forall in Hcheck. specialize (Hcheck a Ha).
  rewrite forallb_forall in Hcheck. specialize (Hcheck b Hb).
  by rewrite (startsWithI_agree a b s Hsa Hsb) in Hcheck.
Qed.

(** X18.  At most one of the five prefix categories matches a prompt,
    since no two alternatives of different categories can begin the same
    text.  So at most two of the six categories match, the confidence is
    never above 1/3, and the cap at 1 is never reached. *)
Theorem classifyInput_confidence_at_most_third (prompt : string) :
  (score followUpMarkers prompt <= 2)%nat
  ∧ (confidence (classifyInput prompt) <= 1 # 3)%Q
  ∧ (confidence (classifyInput prompt)
     == Z.of_nat (score followUpMarkers prompt) # 6)%Q.
Proof.
  assert (Hscore : (score followUpMarkers prompt <= 2)%nat).
  { unfold score, followUpMarkers. cbn [foldl].
    set (l1 := ["continue"; "keep going"; "more"; "next"; "and then"; "also";
                "additionally"; "furthermore"; "moreover"]).
    set (l2 := ["what about"; "how about"; "can you"; "could you"; "would you"; "please"]).
    set (l3 := ["but"; "however"; "though"; "although"; "except"; "unless"]).
    set (l4 := ["yes"; "no"; "ok"; "okay"; "sure"; "absolutely"; "definitely"]).
    set (l5 := ["thanks"; "thank you"; "thx"]).
    pose proof (prefix_categories_exclusive l1 l2 prompt eq_refl) as E12.
    pose proof (prefix_categories_exclusive l1 l3 prompt eq_refl) as E13.
    pose proof (prefix_categories_exclusive l1 l4 prompt eq_refl) as E14.
    pose proof (prefix_categories_exclusive l1 l5 prompt eq_refl) as E15.
    pose proof (prefix_categories_exclusive l2 l3 prompt eq_refl) as E23.
    pose proof (prefix_categories_exclusive l2 l4 prompt eq_refl) as E24.
    pose proof (prefix_categories_exclusive l2 l5 prompt eq_refl) as E25.
    pose proof (prefix_categories_exclusive l3 l4 prompt eq_refl) as E34.
    pose proof (prefix_categories_exclusive l3 l5 prompt eq_refl) as E35.
    pose proof (prefix_categories_exclusive l4 l5 prompt eq_refl) as E45.
    destruct (test (StartsWithAny l1) prompt), (test (StartsWithAny l2) prompt),
             (test (StartsWithAny l3) prompt), (test (StartsWithAny l4) prompt),
             (test (StartsWithAny l5) prompt), (test (EndsWith "?") prompt);
      try lia; exfalso; auto. }
  assert (Hc : (inject_Z (Z.of_nat (score followUpMarkers prompt))
                / inject_Z (Z.of_nat (length followUpMarkers))
                == Z.of_nat (score followUpMarkers prompt) # 6)%Q).
  { unfold Qeq. simpl. lia. }
  assert (Hc1 : (Z.of_nat (score followUpMarkers prompt) # 6 <= 1 # 3)%Q).
  { unfold Qle. simpl. lia. }
  assert (Hconf : (confidence (classifyInput prompt)
                   == Z.of_nat (score followUpMarkers prompt) # 6)%Q).
  { unfold classifyInput. cbn [confidence].
    rewrite Q.min_l; [exact Hc|]. rewrite Hc. unfold Qle. simpl. lia. }
  split; [exact Hscore|]. split; [by rewrite Hconf|exact Hconf].
Qed.

(* ===================================================================== *)
(** ** Further properties: the context builder *)
(* ===================================================================== *)

(** X19.  Whatever the synopsis and the messages, the context returned is
    at most 2003 characters long and [lastTurns] is at most 6; and a
    context of at most 2000 characters is returned as assembled, with no
    marker. *)
Theorem buildContext_bounded (synopsis : Session.ISynopsis) (lastMessages : list message) :
  let result := buildContext synopsis lastMessages in
  (String.length (context result) <= maxContextLength + 3)%nat
  ∧ (Prompt.lastTurns (contextUsed result) <= 6)%nat
  ∧ ((String.length (assembled synopsis lastMessages) <= maxContextLength)%nat →
     context result = assembled synopsis lastMessages).
Proof.
  intros result. subst result. unfold buildContext.
  cbn [context contextUsed Prompt.lastTurns].
  destruct (Nat.ltb_spec maxContextLength (String.length (assembled synopsis lastMessages)))
    as [Hlong|Hshort].
  - split; [rewrite length_append, length_substring_0 by lia; simpl; lia|].
    split; [rewrite length_sliceLast; lia|]. lia.
  - split; [lia|]. split; [rewrite length_sliceLast; lia|done].
Qed.

Lemma buildContext_bounded_witness :
  let lastMessages := [Message user "What about a shorter version?"] in
  context (buildContext Session.empty lastMessages)
  = assembled Session.empty lastMessages.
Proof.
  intros lastMessages.
  apply (buildContext_bounded Session.empty lastMessages).
  apply Nat.leb_le. vm_compute. reflexivity.
Defined.

Lemma pushField_falsy label field acc :
  truthy field = false → pushField label field acc = acc.
Proof. intros H. unfold pushField. destruct field; [by rewrite H|done]. Qed.

(** X20.  A synopsis whose fields are all absent or empty strings and
    whose todo list is absent or empty adds nothing: with no messages
    either, the context is the empty string and nothing is reported as
    used; with messages, the context is the conversation block alone and
    no synopsis character is counted. *)
Theorem buildContext_blank_synopsis (synopsis : Session.ISynopsis) (lastMessages : list message) :
  truthy (Session.goal synopsis) = false →
  truthy (Session.tone synopsis) = false →
  truthy (Session.constraints synopsis) = false →
  truthy (Session.audience synopsis) = false →
  truthy (Session.style synopsis) = false →
  default [] (Session.todos synopsis) = [] →
  buildContext synopsis [] = ContextResult "" (Prompt.ContextUsed 0 0)
  ∧ Prompt.synopsisChars (contextUsed (buildContext synopsis lastMessages)) = 0%nat
  ∧ (lastMessages ≠ [] →
     assembled synopsis lastMessages
     = "Recent conversation:" +:+ newline
       +:+ String.concat newline (renderMessage <$> sliceLast 6 lastMessages)).
Proof.
  intros Hg Ht Hc Ha Hs Htodos.
  assert (Hparts : synopsisParts synopsis = ([], 0%nat)).
  { unfold synopsisParts. rewrite !pushField_falsy by done.
    unfold pushTodos. destruct (Session.todos synopsis) as [l|]; [|done].
    simpl in Htodos. by rewrite Htodos. }
  split; [|split].
  - unfold buildContext, assembled. rewrite Hparts. reflexivity.
  - unfold buildContext. cbn [contextUsed Prompt.synopsisChars]. by rewrite Hparts.
  - intros Hne. unfold assembled. rewrite Hparts. cbn [fst length].
    change (0 <? 0)%nat with false. cbn iota.
    destruct (Nat.ltb_spec 0 (length (sliceLast 6 lastMessages))) as [_|Hzero]; [done|].
    rewrite length_sliceLast in Hzero. destruct lastMessages; [done|simpl in Hzero; lia].
Qed.

Lemma buildContext_blank_synopsis_witness :
  buildContext (Session.Synopsis (Some "") None None None None (Some [])) []
  = ContextResult "" (Prompt.ContextUsed 0 0).
Proof.
  apply (buildContext_blank_synopsis
           (Session.Synopsis (Some "") None None None None (Some [])) []);
    reflexivity.
Defined.

(* ===================================================================== *)
(** ** Further properties: the session routes *)
(* ===================================================================== *)

Lemma findOne_app_fresh q docs doc :
  (∀ d, d ∈ docs → Session.matches q d = false) →
  Session.findOne q (docs ++ [doc]) = if Session.matches q doc then Some doc else None.
Proof.
  unfold Session.findOne. induction docs as [|d docs IH]; intros H; simpl.
  - by destruct (Session.matches q doc).
  - rewrite (H d) by apply list_elem_of_here.
    apply IH. intros d' Hd'. apply H. by apply list_elem_of_further.
Qed.

Lemma matches_other_id q doc :
  Session._id doc ≠ Session.q_id q → Session.matches q doc = false.
Proof.
  intros H. unfold Session.matches.
  by destruct (String.eqb_spec (Session._id doc) (Session.q_id q)).
Qed.

Lemma truthy_Some v : truthy v = true → ∃ x, v = Some x.
Proof. destruct v; [by eexists|discriminate]. Qed.

(** X21.  A session is read back by the caller who created it when the
    two requests carry the same identity.  [raw] is the creating request
    and [raw'] the reading one, as they arrive, before the middleware
    gives each its anonymous id; the session is created under an id the
    store does not hold yet.  If the creator is signed in and the reader
    is the same user, or if neither is signed in and the reader sends the
    [pe_anon_id] cookie the creator sent, [GET /session/:id] replies with
    the session as created: no synopsis field but the empty list of
    todos, and version 0.  But [POST /session] sets no cookie: a creator
    without user and cookie who reads without them is given another
    anonymous id by the middleware, and is told 404. *)
Theorem created_session_read_back
    (raw raw' : Request.t) (uuid uuid' : string) (title : option string)
    (newId : string) (now : Date) (db : DB) :
  (∀ doc, doc ∈ sessions db → Session._id doc ≠ newId) →
  let creator := anonIdMiddleware uuid raw in
  let reader := anonIdMiddleware uuid' raw' in
  let db' := snd (postSession creator title newId now db) in
  ((truthy (Request.userId raw) = true ∧ Request.userId raw' = Request.userId raw)
   ∨ (truthy (Request.userId raw) = false ∧ truthy (Request.userId raw') = false
      ∧ truthy (Request.cookie raw) = true ∧ Request.cookie raw' = Request.cookie raw) →
   getSession reader newId db'
   = Json 200 (Session.Doc newId (Request.userId raw) (Request.anonId creator) title
                 (Session.Synopsis None None None None None (Some [])) 0 now))
  ∧ (truthy (Request.userId raw) = false → truthy (Request.userId raw') = false →
     truthy (Request.cookie raw) = false → truthy (Request.cookie raw') = false →
     uuid' ≠ uuid →
     getSession reader newId db' = Error 404 "Session not found").
Proof.
  intros Hfresh creator reader db'.
  set (created := Session.createSession (Request.userId creator) title
                    (Request.anonId creator) newId now).
  assert (Hfind : ∀ q, Session.q_id q = newId →
            Session.findOne q (sessions db') 
            = if Session.matches q created then Some created else None).
  { intros q Hq. subst db'. unfold postSession. cbn [snd sessions].
    apply findOne_app_fresh. intros d Hd. apply matches_other_id.
    rewrite Hq. by apply Hfresh. }
  assert (Hcu : Request.userId creator = Request.userId raw)
    by apply anonIdMiddleware_userId.
  assert (Hru : Request.userId reader = Request.userId raw')
    by apply anonIdMiddleware_userId.
  assert (Hmatch : ∀ q, Session.matches q created
            = String.eqb newId (Session.q_id q)
              && Session.keyMatches (Session.q_userId q) (Request.userId raw)
              && Session.keyMatches (Session.q_anonId q) (Request.anonId creator)).
  { intros q. unfold Session.matches, created, Session.createSession.
    cbn [Session._id Session.userId Session.anonId]. by rewrite Hcu. }
  split.
  - intros [[Hu Hsame]|(Hu & Hu' & Hc & Hsame)]; unfold getSession; rewrite Hru.
    + rewrite Hsame, Hu, Hfind, Hmatch by done.
      cbn [Session.q_id Session.q_userId Session.q_anonId Session.keyMatches].
      apply truthy_Some in Hu as Hx. destruct Hx as [u Hx]. rewrite Hx.
      cbn [Session.keyMatches].
      rewrite String.eqb_refl, bool_decide_eq_true_2 by done. cbn [andb].
      unfold created, Session.createSession. by rewrite Hcu, Hx.
    + rewrite Hu'.
      assert (Hra : Request.anonId reader = Request.cookie raw).
      { subst reader. unfold anonIdMiddleware. by rewrite Hsame, Hc. }
      assert (Hca : Request.anonId creator = Request.cookie raw).
      { subst creator. unfold anonIdMiddleware. by rewrite Hc. }
      rewrite Hra, Hc, Hfind, Hmatch by done.
      cbn [Session.q_id Session.q_userId Session.q_anonId Session.keyMatches].
      apply truthy_Some in Hc as Hx. destruct Hx as [a Hx]. rewrite Hca, Hx.
      cbn [Session.keyMatches].
      rewrite String.eqb_refl, bool_decide_eq_true_2 by done. cbn [andb].
      unfold created, Session.createSession. by rewrite Hcu, Hca, Hx.
  - intros Hu Hu' Hc Hc' Hne. unfold getSession. rewrite Hru, Hu'.
    assert (Hra : Request.anonId reader = Some uuid').
    { subst reader. unfold anonIdMiddleware. by rewrite Hc'. }
    assert (Hca : Request.anonId creator = Some uuid).
    { subst creator. unfold anonIdMiddleware. by rewrite Hc. }
    rewrite Hra. destruct (truthy (Some uuid')); [|done].
    rewrite Hfind, Hmatch by done.
    cbn [Session.q_id Session.q_userId Session.q_anonId]. rewrite Hca.
    cbn [Session.keyMatches].
    rewrite bool_decide_eq_false_2 by congruence.
    by rewrite andb_false_r.
Qed.

Lemma created_session_read_back_witness :
  let raw := Request.Req (Some "abc123") None None in
  let creator := anonIdMiddleware "0b8f6f1e" raw in
  let reader := anonIdMiddleware "7c9e6679" raw in
  getSession reader "65a4f0c2e13b4a0012345678"
    (snd (postSession creator None "65a4f0c2e13b4a0012345678" 1705314600000
            (Collections [] [])))
  = Json 200 (Session.Doc "65a4f0c2e13b4a0012345678" None (Some "abc123") None
                (Session.Synopsis None None None None None (Some [])) 0 1705314600000).
Proof.
  intros raw creator reader.
  destruct (created_session_read_back raw raw "0b8f6f1e" "7c9e6679" None
              "65a4f0c2e13b4a0012345678" 1705314600000 (Collections [] [])) as [H _].
  - intros doc Hin. by apply elem_of_nil in Hin.
  - apply H. right. repeat split; reflexivity.
Defined.

Lemma getSession_filters_by_owner_witness :
  let session := Session.createSession None None (Some "abc123") "sess_456" 1705314600000 in
  let req := Request.Req (Some "abc123") None (Some "abc123") in
  Session._id session = "sess_456"
  ∧ Session.anonId session = Request.anonId req.
Proof.
  intros session req.
  apply (getSession_filters_by_owner req "sess_456" (Collections [session] []) session 200).
  reflexivity.
Defined.

Lemma anonymous_session_hidden_from_others_witness :
  let creator := Request.Req (Some "abc123") None (Some "abc123") in
  let db := snd (postSession creator None "sess_456" 1705314600000 (Collections [] [])) in
  getSession (Request.Req (Some "zzz999") None (Some "zzz999")) "sess_456" db
  = Error 404 "Session not found".
Proof.
  intros creator db.
  apply (anonymous_session_hidden_from_others (Some "abc123") "abc123" None "sess_456"
           1705314600000 (Collections [] [])
           (Request.Req (Some "zzz999") None (Some "zzz999"))).
  - intros doc H. by apply elem_of_nil in H.
  - right. discriminate.
Defined.

(** X24.  A merge that does not succeed leaves the store as it is; and
    after a merge that succeeded, a further merge of the same session
    under the same anonymous id, by whichever signed-in user, is answered
    404 and changes nothing: the session is handed over once. *)
Theorem mergeSession_once (req : Request.t) (sessionId : string) (db : DB) :
  (∀ status error db', mergeSession req sessionId db = (Error status error, db') → db' = db)
  ∧ (∀ body db' req',
       mergeSession req sessionId db = (Json 200 body, db') →
       Request.anonId req' = Request.anonId req →
       is_Some (Request.userId req') →
       mergeSession req' sessionId db' = (Error 404 "Session not found", db')).
Proof.
  split.
  - intros status error db'. unfold mergeSession.
    destruct (Request.userId req); [|by intros [= _ _ <-]].
    destruct (truthy (Request.anonId req)); simpl; [|by intros [= _ _ <-]].
    destruct (Session.findOne _ _); [discriminate|by intros [= _ _ <-]].
  - intros body db' req' Hmerge Hanon [u' Hu']. unfold mergeSession in *.
    rewrite Hu', Hanon.
    destruct (Request.userId req) as [u|]; [|discriminate].
    destruct (truthy (Request.anonId req)) eqn:Ha; simpl in *; [|discriminate].
    destruct (Session.findOne _ (sessions db)) as [session|] eqn:Hf; [|discriminate].
    injection Hmerge as _ <-. cbn [sessions].
    apply truthy_Some in Ha as [a Ha]. rewrite Ha in *.
    apply findOne_Some in Hf as [Hin Hm]. pose proof (matches_id _ _ Hm) as Hid.
    simpl in Hid.
    rewrite findOne_None; [done|]. intros d Hd.
    unfold Session.matches. cbn [Session.q_id Session.q_userId Session.q_anonId
                                 Session.keyMatches].
    destruct (String.eqb_spec (Session._id d) sessionId) as [Heq|]; [|done].
    rewrite (save_replaces _ _ _ Hd) by (simpl; congruence). done.
Qed.

Lemma mergeSession_once_witness :
  let session := Session.createSession None None (Some "abc123") "sess_456" 1705314600000 in
  let db := Collections [session] [] in
  let req := Request.Req (Some "abc123") (Some "user123") (Some "abc123") in
  let db' := snd (mergeSession req "sess_456" db) in
  mergeSession (Request.Req (Some "abc123") (Some "user999") (Some "abc123")) "sess_456" db'
  = (Error 404 "Session not found", db').
Proof.
  intros session db req db'.
  apply (proj2 (mergeSession_once req "sess_456" db) "sess_456" db'
           (Request.Req (Some "abc123") (Some "user999") (Some "abc123"))).
  - reflexivity.
  - reflexivity.
  - by eexists.
Defined.









(* ===================================================================== *)
(** ** Further properties: the enhancement request *)
(* ===================================================================== *)

Lemma enhanceContext_None req useHistory followUp finalSessionId lastMessages db c cu :
  enhanceContext req useHistory followUp finalSessionId lastMessages db = (None, c, cu) →
  c = None ∧ cu = Prompt.ContextUsed 0 0.
Proof.
  unfold enhanceContext. destruct finalSessionId; [|by intros [= <- <-]].
  destruct (_ && _); [|by intros [= <- <-]].
  destruct (Session.findOne _ _); [discriminate|by intros [= <- <-]].
Qed.

Lemma enhanceContext_Some req useHistory followUp finalSessionId lastMessages db
    session c cu :
  enhanceContext req useHistory followUp finalSessionId lastMessages db
  = (Some session, c, cu) →
  useHistory = true ∧ followUp = true
  ∧ finalSessionId = Some (Session._id session)
  ∧ session ∈ sessions db
  ∧ (truthy (Request.userId req) = true → Session.userId session = Request.userId req)
  ∧ (truthy (Request.userId req) = false → truthy (Request.anonId req) = true →
     Session.anonId session = Request.anonId req)
  ∧ cu = contextUsed (buildContext (Session.synopsis session) (default [] lastMessages)).
Proof.
  unfold enhanceContext. destruct finalSessionId as [id|]; [|discriminate].
  destruct useHistory, followUp; try discriminate.
  destruct (truthy (Some id)); [|discriminate]. cbn [andb].
  destruct (Session.findOne _ _) as [found_session|] eqn:Hf; [|discriminate].
  intros [= <- _ <-]. apply findOne_Some in Hf as [Hin Hm].
  pose proof (matches_id _ _ Hm) as Hid.
  split; [done|]. split; [done|].
  destruct (truthy (Request.userId req)) eqn:Hu.
  - simpl in Hid. rewrite Hid. repeat split; try done.
    intros _. apply truthy_Some in Hu as [u Hu]. rewrite Hu in *.
    unfold Session.matches in Hm. simpl in Hm.
    apply andb_prop in Hm as [Hm _]. apply andb_prop in Hm as [_ Hm].
    by apply bool_decide_eq_true in Hm.
  - destruct (truthy (Request.anonId req)) eqn:Ha.
    + simpl in Hid. rewrite Hid. repeat split; try done.
      intros _ _. apply truthy_Some in Ha as [a Ha]. rewrite Ha in *.
      unfold Session.matches in Hm. simpl in Hm.
      apply andb_prop in Hm as [_ Hm]. by apply bool_decide_eq_true in Hm.
    + simpl in Hid. rewrite Hid. by repeat split.
Qed.

Lemma enhanceSession_prompts req sessionId autoCreateSession newId now db :
  prompts (snd (enhanceSession req sessionId autoCreateSession newId now db)) = prompts db.
Proof. unfold enhanceSession. by destruct (_ && _). Qed.

Section Enhance.

Variable enhancePrompt :
  string → option string → option (list message) → option enhancement.
Variable patchPrompt : string → string → string.
Variable savePrompt : Prompt.IPrompt → bool.
Variables (req : Request.t) (body : enhance_body).
Variables (newSessionId newPromptId : string).
Variables (startTime createTime endTime replyTime : Date) (db : DB).

#[local] Abbreviation handled :=
  (postEnhance enhancePrompt patchPrompt savePrompt req body newSessionId newPromptId
     startTime createTime endTime replyTime db).

(** The session the request goes on with, and the text it stores. *)
#[local] Abbreviation finalSession :=
  (fst (enhanceSession req (body_sessionId body) (body_autoCreateSession body)
          newSessionId createTime db)).

#[local] Abbreviation finalText result :=
  (if isValid (verifyPrompt (enh_enhancedPrompt result))
   then enh_enhancedPrompt result
   else patchPrompt (enh_enhancedPrompt result) (body_prompt body)).

(** X27.  When the enhancement call fails, the reply is 500, no prompt is
    stored, no cookie is set and no job is enqueued; but a session that
    the request auto-created before the call stays in the store. *)
Theorem postEnhance_failure :
  (∀ context, enhancePrompt (body_prompt body) context (body_lastMessages body) = None) →
  fst (fst handled) = Error 500 "Failed to enhance prompt"
  ∧ snd (fst handled) = EnhanceEffects None None
  ∧ prompts (snd handled) = prompts db
  ∧ (body_autoCreateSession body = true → truthy (body_sessionId body) = false →
     sessions (snd handled)
     = sessions db ++ [Session.createSession (Request.userId req) None
                         (Request.anonId req) newSessionId createTime])
  ∧ (body_autoCreateSession body && negb (truthy (body_sessionId body)) = false →
     snd handled = db).
Proof.
  intros Hfail. unfold postEnhance, enhanceSession.
  destruct (body_autoCreateSession body && negb (truthy (body_sessionId body))) eqn:Hauto.
  - destruct (enhanceContext _ _ _ _ _ _) as [[session context] used].
    rewrite Hfail. cbn [fst snd prompts sessions]. repeat split; try done.
  - destruct (enhanceContext _ _ _ _ _ _) as [[session context] used].
    rewrite Hfail. cbn [fst snd prompts sessions]. repeat split; try done.
    intros Ha Hs. by rewrite Ha, Hs in Hauto.
Qed.

(** X28.  When the enhancement call succeeds and the store saves the
    prompt of the request (the one of the session the request went on
    with, with the text the caller sent, the final text and the model's
    name), the reply is 200 and exactly one prompt is appended to the
    store: with the caller's user id (none for an anonymous caller), the
    session the request went on with, the text the caller sent as
    [original], and as [enhanced] the model's text when it passes
    [verifyPrompt] and the patched text otherwise; the reply carries that
    same text, the prompt's id and the same context usage.  The sessions
    are those after the auto-creation step.  When the store refuses the
    prompts of that session, as it does for a [sessionId] that is no
    ObjectId, the reply is 500 after the model was called: no prompt is
    stored, no cookie is set and no job is enqueued. *)
Theorem postEnhance_stores_one_prompt (result : enhancement) :
  (∀ context,
     enhancePrompt (body_prompt body) context (body_lastMessages body) = Some result) →
  ((∀ p, Prompt.sessionId p = finalSession →
         Prompt.original p = body_prompt body →
         Prompt.enhanced p = finalText result →
         Prompt.model p = enh_model result →
         savePrompt p = true) →
   ∃ reply stored,
     fst (fst handled) = Json 200 reply
     ∧ prompts (snd handled) = prompts db ++ [stored]
     ∧ sessions (snd handled)
       = sessions (snd (enhanceSession req (body_sessionId body)
                          (body_autoCreateSession body) newSessionId createTime db))
     ∧ Prompt._id stored = newPromptId
     ∧ reply_promptId reply = newPromptId
     ∧ Prompt.userId stored = Request.userId req
     ∧ Prompt.original stored = body_prompt body
     ∧ Prompt.enhanced stored = finalText result
     ∧ reply_enhancedPrompt reply = Prompt.enhanced stored
     ∧ Prompt.sessionId stored = finalSession
     ∧ Prompt.useHistory stored
       = body_useHistory body && isFollowUp (classifyInput (body_prompt body))
     ∧ reply_useHistory reply = Prompt.useHistory stored
     ∧ reply_contextUsed reply = Prompt.contextUsed stored
     ∧ Prompt.latencyMs stored = endTime - startTime
     ∧ reply_latencyMs reply = replyTime - startTime)
  ∧ ((∀ p, Prompt.sessionId p = finalSession → savePrompt p = false) →
     fst handled = (Error 500 "Failed to enhance prompt", EnhanceEffects None None)
     ∧ snd handled
       = snd (enhanceSession req (body_sessionId body) (body_autoCreateSession body)
                newSessionId createTime db)).
Proof.
  intros Hok. unfold postEnhance.
  pose proof (enhanceSession_prompts req (body_sessionId body)
                (body_autoCreateSession body) newSessionId createTime db) as Hprompts.
  destruct (enhanceSession _ _ _ _ _ _) as [finalSessionId db1].
  destruct (enhanceContext _ _ _ _ _ _) as [[session context] used].
  rewrite Hok. cbn [fst snd prompts sessions] in *. split.
  - intros Hsave. rewrite Hsave; cbn [Prompt.sessionId Prompt.original Prompt.enhanced
                                       Prompt.model negb]; try done.
    + rewrite Hprompts. eexists. eexists. split; [reflexivity|]. split; [reflexivity|].
      cbn. repeat split. by destruct (isValid _).
    + by destruct (isValid _).
  - intros Hsave. by rewrite Hsave.
Qed.

(** X29.  The session history is used only for a follow-up that asked
    for it.  For a request whose enhancement call succeeds and whose
    prompt the store saves: when [useHistory] is off or the prompt is not
    classified as a follow-up, no context is used and no synopsis job is
    enqueued.  A job that is enqueued is for a session stored under the
    caller's own owner field.  And the anonymous cookie is never set for
    a signed-in caller or for a caller that sent one. *)
Theorem postEnhance_history_gate (result : enhancement) :
  (∀ context,
     enhancePrompt (body_prompt body) context (body_lastMessages body) = Some result) →
  (∀ p, Prompt.sessionId p = finalSession →
        Prompt.original p = body_prompt body →
        Prompt.enhanced p = finalText result →
        Prompt.model p = enh_model result →
        savePrompt p = true) →
  ∃ reply,
    fst (fst handled) = Json 200 reply
    ∧ (body_useHistory body && isFollowUp (classifyInput (body_prompt body)) = false →
       reply_contextUsed reply = Prompt.ContextUsed 0 0
       ∧ reply_useHistory reply = false
       ∧ enqueueSynopsisUpdate (snd (fst handled)) = None)
    ∧ (∀ id turns, enqueueSynopsisUpdate (snd (fst handled)) = Some (id, turns) →
         body_useHistory body = true
         ∧ isFollowUp (classifyInput (body_prompt body)) = true
         ∧ turns = default [] (body_lastMessages body)
         ∧ reply_sessionId reply = Some id
         ∧ ∃ session, session ∈ sessions (snd handled)
             ∧ Session._id session = id
             ∧ (truthy (Request.userId req) = true →
                Session.userId session = Request.userId req)
             ∧ (truthy (Request.userId req) = false →
                truthy (Request.anonId req) = true →
                Session.anonId session = Request.anonId req))
    ∧ (truthy (Request.userId req) || truthy (Request.cookie req) = true →
       setAnonIdCookie (snd (fst handled)) = None).
Proof.
  intros Hok Hsave. unfold postEnhance.
  destruct (enhanceSession _ _ _ _ _ _) as [finalSessionId db1].
  destruct (enhanceContext _ _ _ _ _ _) as [[session context] used] eqn:Hctx.
  rewrite Hok. cbn [fst snd] in Hsave.
  rewrite Hsave; cbn [Prompt.sessionId Prompt.original Prompt.enhanced Prompt.model negb];
    [|done|done|by destruct (isValid _)|done].
  cbn [fst snd prompts sessions].
  eexists. split; [reflexivity|].
  cbn [reply_contextUsed reply_useHistory reply_sessionId enqueueSynopsisUpdate
       setAnonIdCookie].
  split; [|split].
  - intros Hoff. destruct session as [session|].
    + apply enhanceContext_Some in Hctx as (Hu & Hf & _). by rewrite Hu, Hf in Hoff.
    + apply enhanceContext_None in Hctx as [_ ->]. by destruct finalSessionId.
  - intros id turns Hjob. destruct finalSessionId as [fid|]; [|discriminate].
    destruct session as [session|]; [|discriminate].
    apply enhanceContext_Some in Hctx as (Hu & Hf & Hid & Hin & Huser & Hanon & _).
    rewrite Hf in Hjob. cbn [andb] in Hjob.
    destruct (truthy (Some fid)) eqn:Hfid; [|discriminate].
    injection Hjob as <- <-. injection Hid as Hid.
    repeat split; try done. exists session. by repeat split.
  - intros Hknown. destruct (truthy (Request.userId req)); [done|].
    simpl in Hknown. rewrite Hknown. cbn [negb andb]. by rewrite andb_false_r.
Qed.

End Enhance.

Lemma postEnhance_failure_witness :
  let req := Request.Req None None (Some "0b8f6f1e") in
  let body := EnhanceBody "Write a poem about the sea" None false None true in
  let save := λ p : Prompt.IPrompt, from_option isObjectIdHex true (Prompt.sessionId p) in
  let handled :=
    postEnhance (λ _ _ _, None) (λ enhanced _, enhanced) save req body
      "65a4f0c2e13b4a0012345678" "65a4f0c9e13b4a0012345679"
      1705314600000 1705314600001 1705314601200 1705314601201 (Collections [] []) in
  fst (fst handled) = Error 500 "Failed to enhance prompt"
  ∧ sessions (snd handled)
    = [Session.createSession None None (Some "0b8f6f1e") "65a4f0c2e13b4a0012345678"
         1705314600001].
Proof.
  intros req body save handled.
  destruct (postEnhance_failure (λ _ _ _, None) (λ enhanced _, enhanced) save req body
              "65a4f0c2e13b4a0012345678" "65a4f0c9e13b4a0012345679"
              1705314600000 1705314600001 1705314601200 1705314601201
              (Collections [] [])) as (Hreply & _ & _ & Hsession & _).
  - reflexivity.
  - split; [exact Hreply|]. apply Hsession; reflexivity.
Defined.

Lemma postEnhance_stores_one_prompt_witness :
  let req := Request.Req None None (Some "0b8f6f1e") in
  let body := EnhanceBody "Write a poem about the sea" None false None false in
  let model := λ (_ : string) (_ : option string) (_ : option (list message)),
    Some (Enhancement "Compose a poem" (Prompt.Tokens 25 45) "gpt-4o-mini") in
  let patch := λ (_ _ : string), "Compose a poem about the sea in a calm tone" in
  let save := λ p : Prompt.IPrompt, from_option isObjectIdHex true (Prompt.sessionId p) in
  let handled :=
    postEnhance model patch save req body
      "65a4f0c2e13b4a0012345678" "65a4f0c9e13b4a0012345679"
      1705314600000 1705314600001 1705314601200 1705314601201 (Collections [] []) in
  ∃ reply stored,
    fst (fst handled) = Json 200 reply
    ∧ prompts (snd handled) = [stored]
    ∧ Prompt.enhanced stored = "Compose a poem about the sea in a calm tone".
Proof.
  intros req body model patch save handled.
  destruct (postEnhance_stores_one_prompt model patch save req body
              "65a4f0c2e13b4a0012345678" "65a4f0c9e13b4a0012345679"
              1705314600000 1705314600001 1705314601200 1705314601201 (Collections [] [])
              (Enhancement "Compose a poem" (Prompt.Tokens 25 45) "gpt-4o-mini"))
    as [Hsaved _].
  - reflexivity.
  - destruct Hsaved
      as (reply & stored & Hreply & Hstored & _ & _ & _ & _ & _ & Henh & _).
    + intros p Hp _ _ _. subst save. cbn beta. rewrite Hp. reflexivity.
    + exists reply, stored. split; [exact Hreply|]. split; [exact Hstored|].
      rewrite Henh. vm_compute. reflexivity.
Defined.

Lemma postEnhance_history_gate_witness :
  let req := Request.Req None None (Some "0b8f6f1e") in
  let body :=
    EnhanceBody "Write a poem about the sea" (Some "65a4f0c2e13b4a0012345678") true None
      false in
  let model := λ (_ : string) (_ : option string) (_ : option (list message)),
    Some (Enhancement "Compose a poem" (Prompt.Tokens 25 45) "gpt-4o-mini") in
  let save := λ p : Prompt.IPrompt, from_option isObjectIdHex true (Prompt.sessionId p) in
  let handled :=
    postEnhance model (λ enhanced _, enhanced) save req body
      "65a4f0d1e13b4a001234567a" "65a4f0c9e13b4a0012345679"
      1705314600000 1705314600001 1705314601200 1705314601201
      (Collections [Session.createSession None None (Some "0b8f6f1e")
                      "65a4f0c2e13b4a0012345678" 1705314500000] []) in
  enqueueSynopsisUpdate (snd (fst handled)) = None.
Proof.
  intros req body model save handled.
  destruct (postEnhance_history_gate model (λ enhanced _, enhanced) save req body
              "65a4f0d1e13b4a001234567a" "65a4f0c9e13b4a0012345679"
              1705314600000 1705314600001 1705314601200 1705314601201
              (Collections [Session.createSession None None (Some "0b8f6f1e")
                              "65a4f0c2e13b4a0012345678" 1705314500000] [])
              (Enhancement "Compose a poem" (Prompt.Tokens 25 45) "gpt-4o-mini"))
    as (reply & _ & Hoff & _).
  - reflexivity.
  - intros p Hp _ _ _. subst save. cbn beta. rewrite Hp. reflexivity.
  - apply Hoff. vm_compute. reflexivity.
Defined.

(* ===================================================================== *)
(** ** Further properties: the access token *)
(* ===================================================================== *)

(** X30.  A [Bearer] header always decides the token, whatever the cookie
    holds: the token is the rest of the header, also when that rest is
    empty.  Any other header, or none, leaves the decision to the
    [access_token] cookie, and without a cookie there is no token. *)
Theorem extractToken_bearer_first (token : string) (authorization cookie : option string) :
  extractToken (Some ("Bearer " +:+ token)) cookie = Some token
  ∧ ((∀ h, authorization = Some h → String.prefix "Bearer " h = false) →
     extractToken authorization cookie = (if truthy cookie then cookie else None)).
Proof.
  split.
  - unfold extractToken. simpl. change ("" +:+ token) with token.
    rewrite Nat.sub_0_r, substring_all. by destruct token.
  - intros Hother. unfold extractToken. destruct authorization as [h|]; [|done].
    rewrite (Hother h eq_refl). by rewrite andb_false_r.
Qed.

Lemma extractToken_bearer_first_witness :
  extractToken (Some "Basic dXNlcjpwdw==") (Some "jwt_xyz123") = Some "jwt_xyz123".
Proof.
  apply (proj2 (extractToken_bearer_first "" (Some "Basic dXNlcjpwdw==") (Some "jwt_xyz123"))).
  intros h [= <-]. reflexivity.
Defined.
